(** * UIGS graph engine: credential decomposition and conflict detection

    A shallow embedding of the core of [services/graph-engine]:
    - [app/models/credential.py]  (issuer and credential-type accessors),
    - [app/models/node.py]        (claim and credential nodes),
    - [app/graph/neo4j_client.py] (the graph store operations, as an
      in-memory property graph),
    - [app/graph/decomposer.py]   (claim extraction and decomposition),
    - [app/graph/conflict_detector.py] (conflict detection),
    - [app/consumer/rabbitmq_consumer.py] (the OIDC normalisation).

    Logging is not modelled.  Awaited calls are sequential calls. *)

From Stdlib Require Import String Ascii List ZArith Lia Bool DecimalString.
Import ListNotations.
Open Scope string_scope.

#[local] Set Warnings "-register-all".

(* ================================================================= *)
(** * Python values *)

(** A float is carried by the text [repr] prints for it (the shortest
    decimal that reads back to the same float), which determines it. *)
Definition pyfloat := string.

(** The values [json.loads] produces, i.e. what [Any] ranges over in
    the payloads.  A [dict] keeps its insertion order: it is the list of
    its items. *)
Inductive pyval : Type :=
| VNone
| VBool (b : bool)
| VInt (z : Z)
| VFloat (f : pyfloat)
| VStr (s : string)
| VList (xs : list pyval)
| VDict (items : list (string * pyval)).

Definition dict := list (string * pyval).

(** [d.get(key)]: [None] stands for a key that is not in [d]. *)
Fixpoint dict_get (d : dict) (key : string) : option pyval :=
  match d with
  | [] => None
  | (k, v) :: rest => if k =? key then Some v else dict_get rest key
  end.

(** [d.get(key, default)]. *)
Definition dict_get_default (d : dict) (key : string) (default : pyval) : pyval :=
  match dict_get d key with
  | Some v => v
  | None => default
  end.

(** [d[key] = v]: an existing key keeps its position. *)
Fixpoint dict_set (d : dict) (key : string) (v : pyval) : dict :=
  match d with
  | [] => [(key, v)]
  | (k, v0) :: rest =>
      if k =? key then (k, v) :: rest else (k, v0) :: dict_set rest key v
  end.

(** [d.update(other)]. *)
Definition dict_update (d other : dict) : dict :=
  fold_left (fun acc kv => dict_set acc (fst kv) (snd kv)) other d.

Definition dict_keys (d : dict) : list string := map fst d.

(** Sequencing of optional results. *)
Definition obind {A B} (o : option A) (f : A -> option B) : option B :=
  match o with
  | Some a => f a
  | None => None
  end.

(** ** Truthiness, [str] and [repr] *)

Definition string_is_empty (s : string) : bool :=
  match s with
  | EmptyString => true
  | String _ _ => false
  end.

(** [bool(v)]. *)
Definition py_truthy (v : pyval) : bool :=
  match v with
  | VNone => false
  | VBool b => b
  | VInt z => negb (z =? 0)%Z
  | VFloat f => negb ((f =? "0.0") || (f =? "-0.0"))
  | VStr s => negb (string_is_empty s)
  | VList xs => match xs with [] => false | _ => true end
  | VDict items => match items with [] => false | _ => true end
  end.

Definition str_of_int (z : Z) : string := NilZero.string_of_int (Z.to_int z).

Definition hex_digit (n : nat) : ascii :=
  match n with
  | 0 => "0" | 1 => "1" | 2 => "2" | 3 => "3" | 4 => "4" | 5 => "5"
  | 6 => "6" | 7 => "7" | 8 => "8" | 9 => "9" | 10 => "a" | 11 => "b"
  | 12 => "c" | 13 => "d" | 14 => "e" | _ => "f"
  end%char.

Fixpoint string_mem (c : ascii) (s : string) : bool :=
  match s with
  | EmptyString => false
  | String a rest => Ascii.eqb a c || string_mem c rest
  end.

(** The quote [repr] puts around a string: double quotes only when the
    string has a single quote and no double quote. *)
Definition squote : ascii := "'"%char.
Definition dquote : ascii := ascii_of_nat 34.
Definition backslash : ascii := ascii_of_nat 92.

Definition repr_quote (s : string) : ascii :=
  if string_mem squote s && negb (string_mem dquote s) then dquote else squote.

(** One character inside [repr(s)].  Bytes from 128 up are the UTF-8
    encoding of characters that [repr] prints unchanged when they are
    printable, which is what is modelled. *)
Definition repr_char (quote c : ascii) : string :=
  let n := nat_of_ascii c in
  if Ascii.eqb c quote || Ascii.eqb c backslash
  then String backslash (String c EmptyString)
  else if (n =? 9)%nat then String backslash "t"
  else if (n =? 10)%nat then String backslash "n"
  else if (n =? 13)%nat then String backslash "r"
  else if (n <? 32)%nat || (n =? 127)%nat
       then String backslash (String "x"%char
              (String (hex_digit (n / 16))
                 (String (hex_digit (n mod 16)) EmptyString)))
  else String c EmptyString.

Fixpoint repr_chars (quote : ascii) (s : string) : string :=
  match s with
  | EmptyString => EmptyString
  | String c rest => repr_char quote c ++ repr_chars quote rest
  end.

Definition repr_str (s : string) : string :=
  let q := repr_quote s in
  String q (repr_chars q s ++ String q EmptyString).

(** [repr(v)]. *)
Fixpoint py_repr (v : pyval) : string :=
  match v with
  | VNone => "None"
  | VBool true => "True"
  | VBool false => "False"
  | VInt z => str_of_int z
  | VFloat f => f
  | VStr s => repr_str s
  | VList xs => "[" ++ String.concat ", " (map py_repr xs) ++ "]"
  | VDict items =>
      "{" ++ String.concat ", "
               (map (fun kv => repr_str (fst kv) ++ ": " ++ py_repr (snd kv)) items)
          ++ "}"
  end.

(** [str(v)]: a string is itself, everything else prints as [repr]. *)
Definition py_str (v : pyval) : string :=
  match v with
  | VStr s => s
  | _ => py_repr v
  end.

(** [s.replace(old, new)] for a one-character [old]. *)
Fixpoint str_replace_char (old : ascii) (new s : string) : string :=
  match s with
  | EmptyString => EmptyString
  | String c rest =>
      (if Ascii.eqb c old then new else String c EmptyString)
        ++ str_replace_char old new rest
  end.

(** Induction on values that reaches inside lists and mappings. *)
Section PyvalInduction.

Variable P : pyval -> Prop.
Hypothesis HNone : P VNone.
Hypothesis HBool : forall b, P (VBool b).
Hypothesis HInt : forall z, P (VInt z).
Hypothesis HFloat : forall f, P (VFloat f).
Hypothesis HStr : forall s, P (VStr s).
Hypothesis HList : forall xs, Forall P xs -> P (VList xs).
Hypothesis HDict : forall items, Forall (fun kv => P (snd kv)) items -> P (VDict items).

Fixpoint pyval_nested_ind (v : pyval) : P v :=
  match v with
  | VNone => HNone
  | VBool b => HBool b
  | VInt z => HInt z
  | VFloat f => HFloat f
  | VStr s => HStr s
  | VList xs =>
      HList xs
        ((fix all (l : list pyval) : Forall P l :=
            match l with
            | [] => Forall_nil P
            | x :: rest => Forall_cons x (pyval_nested_ind x) (all rest)
            end) xs)
  | VDict items =>
      HDict items
        ((fix all (l : list (string * pyval)) : Forall (fun kv => P (snd kv)) l :=
            match l with
            | [] => Forall_nil _
            | kv :: rest =>
                Forall_cons kv (pyval_nested_ind (snd kv)) (all rest)
            end) items)
  end.

End PyvalInduction.

(* ================================================================= *)
(** * app/models/credential.py *)

Module VerifiableCredential.

(** The dataclass, with the field types it declares.  [issuer] is kept
    as any value, as [get_issuer_id] has a branch for one that is
    neither a string nor a dict. *)
Record t : Type := mk {
  context : list string;
  type : list string;
  id : option string;
  issuer : pyval;
  issuance_date : option string;
  expiration_date : option string;
  credential_subject : dict;
  proof : option dict
}.

(** The field defaults of the dataclass. *)
Definition default : t :=
  mk [] [] None (VStr EmptyString) None None [] None.

Definition get_issuer_id (self : t) : pyval :=
  match issuer self with
  | VStr s => VStr s
  | VDict d => dict_get_default d "id" (VStr (py_str (VDict d)))
  | other => VStr (py_str other)
  end.

(** [VNone] is Python's [None]. *)
Definition get_issuer_name (self : t) : pyval :=
  match issuer self with
  | VDict d => dict_get_default d "name" VNone
  | _ => VNone
  end.

Definition get_credential_type (self : t) : string :=
  let specific_types :=
    filter (fun t0 => negb (t0 =? "VerifiableCredential")) (type self) in
  match specific_types with
  | first :: _ => first
  | [] => "VerifiableCredential"
  end.

End VerifiableCredential.

(* ================================================================= *)
(** * app/models/credential.py: parsing a payload *)

(** The dataclass holds whatever the payload has under a key; the
    record [VerifiableCredential.t] holds fields of the types the
    dataclass declares.  These readers give a field of the declared
    type, and [None] for a value of another type. *)
Definition as_str_list (v : pyval) : option (list string) :=
  match v with
  | VList xs =>
      fold_right (fun x acc =>
                    match x, acc with
                    | VStr s, Some rest => Some (s :: rest)
                    | _, _ => None
                    end)
                 (Some []) xs
  | _ => None
  end.

(** An [Optional[str]] field read with [data.get(key)]. *)
Definition as_optional_str (v : option pyval) : option (option string) :=
  match v with
  | None => Some None
  | Some VNone => Some None
  | Some (VStr s) => Some (Some s)
  | Some _ => None
  end.

Definition as_dict (v : pyval) : option dict :=
  match v with
  | VDict items => Some items
  | _ => None
  end.

(** An [Optional[dict]] field read with [data.get(key)]. *)
Definition as_optional_dict (v : option pyval) : option (option dict) :=
  match v with
  | None => Some None
  | Some VNone => Some None
  | Some (VDict items) => Some (Some items)
  | Some _ => None
  end.

(** [VerifiableCredential.from_dict], on the payloads whose fields have
    the declared types ([issuer] is kept whatever it is). *)
Definition credential_from_dict (data : dict) : option VerifiableCredential.t :=
  obind (as_str_list (dict_get_default data "@context" (VList []))) (fun context =>
  obind (as_str_list (dict_get_default data "type" (VList []))) (fun type =>
  obind (as_optional_str (dict_get data "id")) (fun id =>
  obind (as_optional_str (dict_get data "issuanceDate")) (fun issuance_date =>
  obind (as_optional_str (dict_get data "expirationDate")) (fun expiration_date =>
  obind (as_dict (dict_get_default data "credentialSubject" (VDict [])))
        (fun credential_subject =>
  obind (as_optional_dict (dict_get data "proof")) (fun proof =>
    Some (VerifiableCredential.mk
            context type id
            (dict_get_default data "issuer" (VStr EmptyString))
            issuance_date expiration_date credential_subject proof)))))))).

(* ================================================================= *)
(** * Date-times *)

(** A [datetime.datetime].  [utcoffset] is the offset of an aware
    date-time in seconds east of UTC; a naive one has none. *)
Record datetime : Type := mk_datetime {
  year : nat;
  month : nat;
  day : nat;
  hour : nat;
  minute : nat;
  second : nat;
  microsecond : nat;
  utcoffset : option Z
}.

Definition str_of_nat (n : nat) : string := NilEmpty.string_of_uint (Nat.to_uint n).

Fixpoint zeros (n : nat) : string :=
  match n with
  | O => EmptyString
  | S k => String "0"%char (zeros k)
  end.

(** [format(n, "0<width>d")]. *)
Definition zpad (width n : nat) : string :=
  let digits := str_of_nat n in
  zeros (width - String.length digits) ++ digits.

Definition isoformat_offset (off : Z) : string :=
  let sign := if (off <? 0)%Z then "-" else "+" in
  let a := Z.to_nat (Z.abs off) in
  let hh := (a / 3600)%nat in
  let mm := ((a mod 3600) / 60)%nat in
  let ss := (a mod 60)%nat in
  sign ++ zpad 2 hh ++ ":" ++ zpad 2 mm
       ++ (if (ss =? 0)%nat then EmptyString else ":" ++ zpad 2 ss).

(** [dt.isoformat()]. *)
Definition isoformat (dt : datetime) : string :=
  zpad 4 (year dt) ++ "-" ++ zpad 2 (month dt) ++ "-" ++ zpad 2 (day dt)
    ++ "T" ++ zpad 2 (hour dt) ++ ":" ++ zpad 2 (minute dt)
    ++ ":" ++ zpad 2 (second dt)
    ++ (if (microsecond dt =? 0)%nat then EmptyString
        else "." ++ zpad 6 (microsecond dt))
    ++ match utcoffset dt with
       | None => EmptyString
       | Some off => isoformat_offset off
       end.

(* ================================================================= *)
(** * The graph store and the world *)

(** The property graph held by Neo4j.  An edge names its end nodes by
    their [node_id].  Fragment nodes are left out: nothing modelled here
    creates or reads one. *)
Record UserRow : Type := mk_user {
  user_node_id : string;
  user_created_at : datetime
}.

Record CredentialRow : Type := mk_credential {
  cred_node_id : string;
  cred_issuer : pyval;
  cred_credential_type : string;
  cred_issuance_date : option string;
  cred_created_at : datetime
}.

Record ClaimRow : Type := mk_claim {
  claim_node_id : string;
  claim_attribute : string;
  claim_value : option string;
  claim_confidence : pyfloat;
  claim_created_at : datetime
}.

Record BelongsToEdge : Type := mk_belongs_to {
  bt_source : string;
  bt_target : string
}.

Record SupportsEdge : Type := mk_supports {
  sup_edge_id : string;
  sup_created_at : datetime;
  sup_source : string;
  sup_target : string
}.

Record ContradictsEdge : Type := mk_contradicts {
  con_edge_id : string;
  con_confidence : pyfloat;
  con_created_at : datetime;
  con_source : string;
  con_target : string
}.

Record Graph : Type := mk_graph {
  users : list UserRow;
  credentials : list CredentialRow;
  claims : list ClaimRow;
  belongs_to : list BelongsToEdge;
  supports : list SupportsEdge;
  contradicts : list ContradictsEdge
}.

Definition empty_graph : Graph := mk_graph [] [] [] [] [] [].

(** What the code runs in: the graph store, the source of the UUIDs
    ([uuid.uuid4()] and Cypher's [randomUUID()]) and the clock
    ([datetime.utcnow()] and Cypher's [datetime()]).  Both sources are
    streams with a read position. *)
Record World : Type := mk_world {
  graph : Graph;
  uuid_src : nat -> string;
  uuid_pos : nat;
  clock : nat -> datetime;
  clock_pos : nat
}.

Definition with_graph (w : World) (g : Graph) : World :=
  mk_world g (uuid_src w) (uuid_pos w) (clock w) (clock_pos w).

(** ** Computations: state passing with exceptions

    A computation ends with a value or a raised exception, and in both
    cases with the world it left behind: a raise undoes nothing. *)
Inductive pyexc : Type :=
| TypeError
| KeyError.

Inductive outcome (A : Type) : Type :=
| Ok (a : A)
| Raised (e : pyexc).
Arguments Ok {A} a.
Arguments Raised {A} e.

Definition M (A : Type) : Type := World -> outcome A * World.

Definition ret {A} (a : A) : M A := fun w => (Ok a, w).

Definition bind {A B} (m : M A) (f : A -> M B) : M B :=
  fun w =>
    match m w with
    | (Ok a, w') => f a w'
    | (Raised e, w') => (Raised e, w')
    end.

Definition raise {A} (e : pyexc) : M A := fun w => (Raised e, w).

Notation "x <- m ;; k" := (bind m (fun x => k))
  (at level 61, m at next level, right associativity).
Notation "m ;;; k" := (bind m (fun _ => k))
  (at level 61, right associativity).

Definition get_graph : M Graph := fun w => (Ok (graph w), w).
Definition put_graph (g : Graph) : M unit := fun w => (Ok tt, with_graph w g).

Definition uuid4 : M string :=
  fun w => (Ok (uuid_src w (uuid_pos w)),
            mk_world (graph w) (uuid_src w) (S (uuid_pos w)) (clock w) (clock_pos w)).

Definition utcnow : M datetime :=
  fun w => (Ok (clock w (clock_pos w)),
            mk_world (graph w) (uuid_src w) (uuid_pos w) (clock w) (S (clock_pos w))).

(** One computation per element, in order. *)
Fixpoint mapM {A B} (f : A -> M B) (xs : list A) : M (list B) :=
  match xs with
  | [] => ret []
  | x :: rest =>
      y <- f x ;;
      ys <- mapM f rest ;;
      ret (y :: ys)
  end.

(** [record = await result.single(); return record[...]]: without a
    record [single()] gives [None], and subscripting it raises. *)
Definition single_field {A} (records : list A) (field : A -> string) : M string :=
  match records with
  | [] => raise TypeError
  | record :: _ => ret (field record)
  end.

(* ================================================================= *)
(** * app/models/node.py *)

Inductive NodeType : Type :=
| USER
| FRAGMENT
| CREDENTIAL
| CLAIM
| CONTEXT.

Definition opt_str (o : option string) : pyval :=
  match o with
  | Some s => VStr s
  | None => VNone
  end.

Module ClaimNode.

Record t : Type := mk {
  node_id : string;
  node_type : NodeType;
  properties : dict;
  created_at : datetime;
  expires_at : option datetime;
  attribute : string;
  value : pyval;
  confidence : pyfloat
}.

(** [str(self.value) if self.value is not None else None]. *)
Definition stored_value (v : pyval) : option string :=
  match v with
  | VNone => None
  | _ => Some (py_str v)
  end.

(** The constructor: the field defaults ([node_id] from [uuid4()]
    unless given, [created_at] from [utcnow()]), then [__post_init__]. *)
Definition new (given_id : option string) (attribute : string)
           (value : pyval) (confidence : pyfloat) : M t :=
  node_id <- match given_id with
             | Some i => ret i
             | None => uuid4
             end ;;
  created_at <- utcnow ;;
  ret (mk node_id CLAIM
          (dict_update []
             [("attribute", VStr attribute);
              ("value", opt_str (stored_value value));
              ("confidence", VFloat confidence)])
          created_at None attribute value confidence).

End ClaimNode.

Module CredentialNode.

Record t : Type := mk {
  node_id : string;
  node_type : NodeType;
  properties : dict;
  created_at : datetime;
  expires_at : option datetime;
  issuer : pyval;
  credential_type : string;
  issuance_date : option datetime
}.

Definition new (issuer : pyval) (credential_type : string)
           (issuance_date : option datetime) : M t :=
  node_id <- uuid4 ;;
  created_at <- utcnow ;;
  ret (mk node_id CREDENTIAL
          (dict_update []
             [("issuer", issuer);
              ("credential_type", VStr credential_type);
              ("issuance_date", opt_str (option_map isoformat issuance_date))])
          created_at None issuer credential_type issuance_date).

Definition set_property (self : t) (key : string) (v : pyval) : t :=
  mk (node_id self) (node_type self) (dict_set (properties self) key v)
     (created_at self) (expires_at self) (issuer self)
     (credential_type self) (issuance_date self).

End CredentialNode.

Module FragmentNode.

Record t : Type := mk {
  node_id : string;
  node_type : NodeType;
  properties : dict;
  created_at : datetime;
  expires_at : option datetime;
  source : string;
  source_id : string
}.

End FragmentNode.

(* ================================================================= *)
(** * app/graph/neo4j_client.py *)

Definition set_users (g : Graph) (us : list UserRow) : Graph :=
  mk_graph us (credentials g) (claims g) (belongs_to g) (supports g) (contradicts g).

Definition add_credentials (g : Graph) (crs : list CredentialRow)
           (bts : list BelongsToEdge) : Graph :=
  mk_graph (users g) (credentials g ++ crs) (claims g)
           (belongs_to g ++ bts) (supports g) (contradicts g).

Definition add_claims (g : Graph) (cls : list ClaimRow) : Graph :=
  mk_graph (users g) (credentials g) (claims g ++ cls)
           (belongs_to g) (supports g) (contradicts g).

Definition add_supports (g : Graph) (es : list SupportsEdge) : Graph :=
  mk_graph (users g) (credentials g) (claims g)
           (belongs_to g) (supports g ++ es) (contradicts g).

Definition add_contradicts (g : Graph) (es : list ContradictsEdge) : Graph :=
  mk_graph (users g) (credentials g) (claims g)
           (belongs_to g) (supports g) (contradicts g ++ es).

(** [MATCH (u:User {node_id: $user_id})] and its like for the other
    labels: every node of the label with that identifier. *)
Definition match_users (g : Graph) (user_id : string) : list UserRow :=
  filter (fun u => user_node_id u =? user_id) (users g).

Definition match_credentials (g : Graph) (credential_id : string) : list CredentialRow :=
  filter (fun c => cred_node_id c =? credential_id) (credentials g).

Definition match_claims (g : Graph) (claim_id : string) : list ClaimRow :=
  filter (fun c => claim_node_id c =? claim_id) (claims g).

(** [MERGE (u:User {node_id: $user_id}) ON CREATE SET u.created_at = datetime()]. *)
Definition create_user_node (user_id : string) : M string :=
  g <- get_graph ;;
  records <- match match_users g user_id with
             | [] =>
                 now <- utcnow ;;
                 let u := mk_user user_id now in
                 put_graph (set_users g (users g ++ [u])) ;;;
                 ret [u]
             | found => ret found
             end ;;
  single_field records user_node_id.

(** [MATCH] the user, then [CREATE] the credential and its BELONGS_TO
    edge, once per matched user. *)
Definition create_credential_node (credential : CredentialNode.t)
           (user_id : string) : M string :=
  g <- get_graph ;;
  let matched := match_users g user_id in
  let row :=
    mk_credential (CredentialNode.node_id credential)
                  (CredentialNode.issuer credential)
                  (CredentialNode.credential_type credential)
                  (option_map isoformat (CredentialNode.issuance_date credential))
                  (CredentialNode.created_at credential) in
  let created := map (fun _ => row) matched in
  let edges :=
    map (fun _ => mk_belongs_to (CredentialNode.node_id credential) user_id) matched in
  put_graph (add_credentials g created edges) ;;;
  single_field created cred_node_id.

Definition create_claim_node (claim : ClaimNode.t) : M string :=
  g <- get_graph ;;
  let row :=
    mk_claim (ClaimNode.node_id claim)
             (ClaimNode.attribute claim)
             (ClaimNode.stored_value (ClaimNode.value claim))
             (ClaimNode.confidence claim)
             (ClaimNode.created_at claim) in
  put_graph (add_claims g [row]) ;;;
  single_field [row] claim_node_id.

(** The edges a [CREATE] makes, one per matched row, each with its own
    [randomUUID()]. *)
Definition draw_edges {A B} (mk : string -> B) (rows : list A) : M (list B) :=
  mapM (fun _ => edge_id <- uuid4 ;; ret (mk edge_id)) rows.

(** One SUPPORTS edge per matched (credential, claim) pair. *)
Definition create_supports_edge (credential_id claim_id : string) : M string :=
  g <- get_graph ;;
  let matched :=
    list_prod (match_credentials g credential_id) (match_claims g claim_id) in
  now <- utcnow ;;
  created <- draw_edges (fun edge_id =>
                           mk_supports edge_id now credential_id claim_id)
                        matched ;;
  put_graph (add_supports g created) ;;;
  single_field created sup_edge_id.

Definition create_contradicts_edge (claim_a_id claim_b_id : string)
           (confidence : pyfloat) : M string :=
  g <- get_graph ;;
  let matched :=
    list_prod (match_claims g claim_a_id) (match_claims g claim_b_id) in
  now <- utcnow ;;
  created <- draw_edges (fun edge_id =>
                           mk_contradicts edge_id confidence now claim_a_id claim_b_id)
                        matched ;;
  put_graph (add_contradicts g created) ;;;
  single_field created con_edge_id.

(** A record of [find_existing_claims].  [row_value] is [None] for a
    record without the key [value]; the query below returns the key in
    every record, with [VNone] for a claim stored without a value. *)
Record ExistingClaim : Type := mk_existing {
  row_node_id : string;
  row_attribute : string;
  row_value : option pyval
}.

(** [MATCH (u:User {node_id: $user_id})
     MATCH (c:Claim {attribute: $attribute})<-[:SUPPORTS]-(cr:Credential)-[:BELONGS_TO]->(u)]:
    one record per path. *)
Definition existing_claims_of (g : Graph) (user_id attribute : string)
  : list ExistingClaim :=
  flat_map (fun u =>
    flat_map (fun c =>
      flat_map (fun s =>
        flat_map (fun cr =>
          flat_map (fun b =>
            [mk_existing (claim_node_id c) (claim_attribute c)
                         (Some (opt_str (claim_value c)))])
            (filter (fun b => (bt_source b =? cred_node_id cr)
                              && (bt_target b =? user_node_id u))
                    (belongs_to g)))
          (match_credentials g (sup_source s)))
        (filter (fun s => sup_target s =? claim_node_id c) (supports g)))
      (filter (fun c => claim_attribute c =? attribute) (claims g)))
    (match_users g user_id).

Definition find_existing_claims (user_id attribute : string)
  : M (list ExistingClaim) :=
  g <- get_graph ;;
  ret (existing_claims_of g user_id attribute).

(* ================================================================= *)
(** * app/graph/decomposer.py *)

Record DecompositionResult : Type := mk_result {
  credential_node : CredentialNode.t;
  claim_nodes : list ClaimNode.t;
  fragment_node : option FragmentNode.t;
  edges_created : nat;
  conflicts_detected : nat
}.

(** [f"{prefix}.{key}" if prefix else key]. *)
Definition full_key_of (prefix key : string) : string :=
  if string_is_empty prefix then key else prefix ++ "." ++ key.

(** The body of [_extract_claims], by recursion on the value that holds
    the mapping; the inner loop is the [for] over its items. *)
Fixpoint extract_claims_of (v : pyval) (prefix : string) {struct v}
  : list (string * pyval) :=
  match v with
  | VDict credential_subject =>
      (fix loop (items : list (string * pyval)) : list (string * pyval) :=
         match items with
         | [] => []
         | (key, value) :: rest =>
             let full_key := full_key_of prefix key in
             (match value with
              | VDict _ => extract_claims_of value full_key
              | VList _ => [(full_key, VStr (py_str value))]
              | _ => [(full_key, value)]
              end ++ loop rest)%list
         end) credential_subject
  | _ => []
  end.

Definition _extract_claims (credential_subject : dict) (prefix : string)
  : list (string * pyval) :=
  extract_claims_of (VDict credential_subject) prefix.

Section Decomposer.

(** [datetime.fromisoformat]: [None] is a raised [ValueError].  Which
    strings it accepts depends on the Python version, so it is taken
    as given. *)
Variable fromisoformat : string -> option datetime.

Definition parse_issuance_date (issuance_date : option string) : option datetime :=
  match issuance_date with
  | None => None
  | Some s =>
      if string_is_empty s then None
      else fromisoformat (str_replace_char "Z"%char "+00:00" s)
  end.

(** The [for attribute, value in claims] loop of [decompose]. *)
Fixpoint decompose_claims (credential_id : string)
         (claims : list (string * pyval))
         (claim_nodes : list ClaimNode.t) (edges_created : nat)
  : M (list ClaimNode.t * nat) :=
  match claims with
  | [] => ret (claim_nodes, edges_created)
  | (attribute, value) :: rest =>
      if attribute =? "id"
      then decompose_claims credential_id rest claim_nodes edges_created
      else
        claim_node <- ClaimNode.new None attribute value "1.0" ;;
        create_claim_node claim_node ;;;
        create_supports_edge credential_id (ClaimNode.node_id claim_node) ;;;
        decompose_claims credential_id rest
                         (claim_nodes ++ [claim_node]) (edges_created + 1)
  end.

Definition decompose (vc : VerifiableCredential.t) (user_id event_id : string)
  : M DecompositionResult :=
  create_user_node user_id ;;;
  let issuance_date :=
    parse_issuance_date (VerifiableCredential.issuance_date vc) in
  credential_node <- CredentialNode.new
                       (VerifiableCredential.get_issuer_id vc)
                       (VerifiableCredential.get_credential_type vc)
                       issuance_date ;;
  let credential_node :=
    CredentialNode.set_property credential_node "event_id" (VStr event_id) in
  let credential_node :=
    CredentialNode.set_property credential_node "issuer_name"
                                (VerifiableCredential.get_issuer_name vc) in
  create_credential_node credential_node user_id ;;;
  let claims :=
    _extract_claims (VerifiableCredential.credential_subject vc) EmptyString in
  r <- decompose_claims (CredentialNode.node_id credential_node) claims [] 0 ;;
  ret (mk_result credential_node (fst r) None (snd r) 0).

End Decomposer.

(** What a claim node says: its attribute and its value. *)
Definition claim_pair (c : ClaimNode.t) : string * pyval :=
  (ClaimNode.attribute c, ClaimNode.value c).

(** The extracted pairs that become claims: all but the subject's [id]. *)
Definition not_subject_id (claim : string * pyval) : bool :=
  negb (fst claim =? "id").

(* ================================================================= *)
(** * app/graph/conflict_detector.py *)

Record Conflict : Type := mk_conflict {
  conflict_id : string;
  attribute : string;
  claim_a : ClaimNode.t;
  claim_b : ClaimNode.t;
  detected_at : datetime
}.

(** [str(existing_claim.get("value", ""))]. *)
Definition existing_value_of (existing_claim : ExistingClaim) : string :=
  py_str (match row_value existing_claim with
          | Some v => v
          | None => VStr EmptyString
          end).

(** [str(new_claim.value) if new_claim.value else ""]. *)
Definition new_value_of (new_claim : ClaimNode.t) : string :=
  if py_truthy (ClaimNode.value new_claim)
  then py_str (ClaimNode.value new_claim)
  else EmptyString.

(** [existing_claim["value"]]. *)
Definition row_value_item (existing_claim : ExistingClaim) : M pyval :=
  match row_value existing_claim with
  | Some v => ret v
  | None => raise KeyError
  end.

(** The [for existing_claim in existing] loop. *)
Fixpoint detect_existing (new_claim : ClaimNode.t)
         (existing : list ExistingClaim) (conflicts : list Conflict)
  : M (list Conflict) :=
  match existing with
  | [] => ret conflicts
  | existing_claim :: rest =>
      if row_node_id existing_claim =? ClaimNode.node_id new_claim
      then detect_existing new_claim rest conflicts
      else
        let existing_value := existing_value_of existing_claim in
        let new_value := new_value_of new_claim in
        if negb (existing_value =? new_value)
        then
          edge_id <- create_contradicts_edge (ClaimNode.node_id new_claim)
                                             (row_node_id existing_claim) "1.0" ;;
          b_value <- row_value_item existing_claim ;;
          claim_b <- ClaimNode.new (Some (row_node_id existing_claim))
                                   (row_attribute existing_claim) b_value "1.0" ;;
          detected_at <- utcnow ;;
          detect_existing new_claim rest
            (conflicts ++ [mk_conflict edge_id (ClaimNode.attribute new_claim)
                                       new_claim claim_b detected_at])
        else detect_existing new_claim rest conflicts
  end.

(** The [for new_claim in new_claims] loop. *)
Fixpoint detect_new (user_id : string) (new_claims : list ClaimNode.t)
         (conflicts : list Conflict) : M (list Conflict) :=
  match new_claims with
  | [] => ret conflicts
  | new_claim :: rest =>
      existing <- find_existing_claims user_id (ClaimNode.attribute new_claim) ;;
      conflicts <- detect_existing new_claim existing conflicts ;;
      detect_new user_id rest conflicts
  end.

Definition detect_conflicts (user_id : string) (new_claims : list ClaimNode.t)
  : M (list Conflict) :=
  detect_new user_id new_claims [].

Definition resolve_conflict (conflict_id preferred_claim_id : string) : M bool :=
  ret true.

(** ** What a detection run may change *)

(** [g'] is [g] with CONTRADICTS edges added, each of which satisfies
    [P]; nothing else differs. *)
Definition contradicts_added (P : ContradictsEdge -> Prop) (g g' : Graph) : Prop :=
  users g' = users g
  /\ credentials g' = credentials g
  /\ claims g' = claims g
  /\ belongs_to g' = belongs_to g
  /\ supports g' = supports g
  /\ exists added, contradicts g' = (contradicts g ++ added)%list /\ Forall P added.

(** A conflict between two different claims. *)
Definition distinct_claims (c : Conflict) : Prop :=
  ClaimNode.node_id (claim_a c) <> ClaimNode.node_id (claim_b c).

Definition distinct_ends (e : ContradictsEdge) : Prop :=
  con_source e <> con_target e.

Definition all_distinct (r : outcome (list Conflict)) : Prop :=
  match r with
  | Ok conflicts => Forall distinct_claims conflicts
  | Raised _ => True
  end.

(* ================================================================= *)
(** * app/consumer/rabbitmq_consumer.py: the OIDC normalisation *)

(** [payload.get(key)]. *)
Definition payload_get (payload : dict) (key : string) : pyval :=
  dict_get_default payload key VNone.

Definition is_none (v : pyval) : bool :=
  match v with
  | VNone => true
  | _ => false
  end.

(** The [vc_payload] that [_process_oidc] hands to
    [VerifiableCredential.from_dict]. *)
Definition oidc_vc_payload (payload : dict) : dict :=
  let credentialSubject : dict :=
    [("id", payload_get payload "sub");
     ("email", payload_get payload "email");
     ("name", payload_get payload "name");
     ("given_name", payload_get payload "given_name");
     ("family_name", payload_get payload "family_name");
     ("picture", payload_get payload "picture")] in
  let vc_payload : dict :=
    [("@context", VList [VStr "https://www.w3.org/2018/credentials/v1"]);
     ("type", VList [VStr "VerifiableCredential"; VStr "OIDCCredential"]);
     ("issuer", dict_get_default payload "iss" (VStr "unknown"));
     ("issuanceDate", dict_get_default payload "timestamp" (VStr EmptyString));
     ("credentialSubject", VDict credentialSubject)] in
  dict_set vc_payload "credentialSubject"
           (VDict (filter (fun kv => negb (is_none (snd kv))) credentialSubject)).

(* ================================================================= *)
(** * app/graph/neo4j_client.py: the conflict listing *)

(** A record of [get_conflicts]. *)
Record ConflictRecord : Type := mk_conflict_record {
  rec_conflict_id : string;
  rec_attribute : string;
  rec_claim_a_id : string;
  rec_claim_a_value : option string;
  rec_claim_b_id : string;
  rec_claim_b_value : option string
}.

Definition conflict_record_eq_dec (a b : ConflictRecord) : {a = b} + {a <> b}.
Proof.
  decide equality; try apply string_dec;
    decide equality; apply string_dec.
Defined.

(** [WHERE (c1)<-[:SUPPORTS]-(:Credential)-[:BELONGS_TO]->(u)]. *)
Definition is_supported_for (g : Graph) (claim_id user_id : string) : bool :=
  existsb (fun s =>
             (sup_target s =? claim_id)
             && existsb (fun cr =>
                           (cred_node_id cr =? sup_source s)
                           && existsb (fun b =>
                                         (bt_source b =? cred_node_id cr)
                                         && (bt_target b =? user_id))
                                      (belongs_to g))
                        (credentials g))
          (supports g).

(** The two ways the undirected pattern
    [(c1:Claim)-[r:CONTRADICTS]-(c2:Claim)] lies on an edge. *)
Definition both_ways (r : ContradictsEdge) : list (string * string) :=
  [(con_source r, con_target r); (con_target r, con_source r)].

(** [MATCH (u:User {node_id: $user_id})
     MATCH (c1:Claim)-[r:CONTRADICTS]-(c2:Claim)
     WHERE (c1)<-[:SUPPORTS]-(:Credential)-[:BELONGS_TO]->(u)]:
    one record per match, before [DISTINCT]. *)
Definition conflict_matches (g : Graph) (user_id : string) : list ConflictRecord :=
  flat_map (fun u =>
    flat_map (fun r =>
      flat_map (fun ends =>
        flat_map (fun c1 =>
          if is_supported_for g (claim_node_id c1) (user_node_id u)
          then map (fun c2 =>
                      mk_conflict_record
                        (con_edge_id r) (claim_attribute c1)
                        (claim_node_id c1) (claim_value c1)
                        (claim_node_id c2) (claim_value c2))
                   (match_claims g (snd ends))
          else [])
          (match_claims g (fst ends)))
        (both_ways r))
      (contradicts g))
    (match_users g user_id).

(** [RETURN DISTINCT ...]. *)
Definition conflicts_of (g : Graph) (user_id : string) : list ConflictRecord :=
  nodup conflict_record_eq_dec (conflict_matches g user_id).

Definition get_conflicts (user_id : string) : M (list ConflictRecord) :=
  g <- get_graph ;;
  ret (conflicts_of g user_id).

(** [ConflictDetector.get_user_conflicts]. *)
Definition get_user_conflicts (user_id : string) : M (list ConflictRecord) :=
  get_conflicts user_id.

(** The record is a listing of the conflict, seen from the existing
    claim or from the new one. *)
Definition lists_from_existing (c : Conflict) (record : ConflictRecord) : Prop :=
  rec_conflict_id record = conflict_id c
  /\ rec_attribute record = attribute c
  /\ rec_claim_a_id record = ClaimNode.node_id (claim_b c)
  /\ rec_claim_b_id record = ClaimNode.node_id (claim_a c).

Definition lists_from_new (c : Conflict) (record : ConflictRecord) : Prop :=
  rec_conflict_id record = conflict_id c
  /\ rec_attribute record = attribute c
  /\ rec_claim_a_id record = ClaimNode.node_id (claim_a c)
  /\ rec_claim_b_id record = ClaimNode.node_id (claim_b c).

(* ================================================================= *)
(** * A runtime to run the code in *)

Definition digit_of (c : ascii) : option nat :=
  let n := nat_of_ascii c in
  if (48 <=? n)%nat && (n <=? 57)%nat then Some (n - 48)%nat else None.

(** Reads exactly [count] decimal digits. *)
Fixpoint read_digits (count acc : nat) (s : string) : option (nat * string) :=
  match count with
  | O => Some (acc, s)
  | S k =>
      match s with
      | String c rest =>
          match digit_of c with
          | Some d => read_digits k (10 * acc + d) rest
          | None => None
          end
      | EmptyString => None
      end
  end.

Definition read_char (c : ascii) (s : string) : option string :=
  match s with
  | String a rest => if Ascii.eqb a c then Some rest else None
  | EmptyString => None
  end.

(** [+HH:MM] or [-HH:MM], or nothing, up to the end of the string. *)
Definition read_offset (s : string) : option (option Z) :=
  match s with
  | EmptyString => Some None
  | String sign rest =>
      obind (if Ascii.eqb sign "+"%char then Some 1%Z
             else if Ascii.eqb sign "-"%char then Some (-1)%Z else None)
        (fun sg =>
      obind (read_digits 2 0 rest) (fun '(hh, rest) =>
      obind (read_char ":"%char rest) (fun rest =>
      obind (read_digits 2 0 rest) (fun '(mm, rest) =>
        if string_is_empty rest && (hh <? 24)%nat && (mm <? 60)%nat
        then Some (Some (sg * Z.of_nat (3600 * hh + 60 * mm))%Z)
        else None))))
  end.

(** A [fromisoformat] that accepts [YYYY-MM-DDTHH:MM:SS] with an
    optional [+HH:MM] or [-HH:MM], and nothing else.  Every Python
    version accepts these strings too, and more. *)
Definition fromisoformat_basic (s : string) : option datetime :=
  obind (read_digits 4 0 s) (fun '(y, s) =>
  obind (read_char "-"%char s) (fun s =>
  obind (read_digits 2 0 s) (fun '(mo, s) =>
  obind (read_char "-"%char s) (fun s =>
  obind (read_digits 2 0 s) (fun '(d, s) =>
  obind (read_char "T"%char s) (fun s =>
  obind (read_digits 2 0 s) (fun '(h, s) =>
  obind (read_char ":"%char s) (fun s =>
  obind (read_digits 2 0 s) (fun '(mi, s) =>
  obind (read_char ":"%char s) (fun s =>
  obind (read_digits 2 0 s) (fun '(sec, s) =>
  obind (read_offset s) (fun off =>
    if (1 <=? y)%nat && (1 <=? mo)%nat && (mo <=? 12)%nat
       && (1 <=? d)%nat && (d <=? 31)%nat
       && (h <? 24)%nat && (mi <? 60)%nat && (sec <? 60)%nat
    then Some (mk_datetime y mo d h mi sec 0 off)
    else None)))))))))))).

(** An empty store, UUIDs [uuid-0], [uuid-1], ... and a clock that
    advances by a microsecond at each reading. *)
Definition world0 : World :=
  mk_world empty_graph
           (fun n => "uuid-" ++ str_of_nat n) 0
           (fun n => mk_datetime 2024 1 15 12 0 0 n None) 0.

(** The credential of the test fixture [sample_vc_data], with the
    subject attributes of the decomposition example. *)
Definition sample_vc : VerifiableCredential.t :=
  VerifiableCredential.mk
    ["https://www.w3.org/2018/credentials/v1"]
    ["VerifiableCredential"; "UniversityDegreeCredential"]
    None
    (VDict [("id", VStr "did:example:university123");
            ("name", VStr "Example University")])
    (Some "2024-01-15T00:00:00Z")
    None
    [("id", VStr "s1");
     ("name", VStr "John Doe");
     ("email", VStr "j@x.com");
     ("degree", VDict [("type", VStr "BS"); ("name", VStr "CS")])]
    None.

(** The body of [_process_vc] once the credential is parsed:
    decomposition, then conflict detection on the new claims. *)
Definition process_credential (vc : VerifiableCredential.t)
           (user_id event_id : string) : M (DecompositionResult * list Conflict) :=
  result <- decompose fromisoformat_basic vc user_id event_id ;;
  conflicts <- detect_conflicts user_id (claim_nodes result) ;;
  ret (mk_result (credential_node result) (claim_nodes result)
                 (fragment_node result) (edges_created result)
                 (List.length conflicts),
       conflicts).

(** Credentials with the given type list, and with the given issuer. *)
Definition with_types (types : list string) : VerifiableCredential.t :=
  VerifiableCredential.mk [] types None (VStr EmptyString) None None [] None.

Definition with_issuer (issuer : pyval) : VerifiableCredential.t :=
  VerifiableCredential.mk [] [] None issuer None None [] None.

(** A credential with the given subject attributes. *)
Definition vc_of_subject (credential_subject : dict) : VerifiableCredential.t :=
  VerifiableCredential.mk
    [] ["VerifiableCredential"] None (VStr "did:example:issuer789")
    None None credential_subject None.


(** A credential that says [age] is the integer 0, and one that says
    [nickname] is [None]. *)
Definition zero_age_vc : VerifiableCredential.t :=
  vc_of_subject [("id", VStr "s1"); ("age", VInt 0)].

Definition null_nickname_vc : VerifiableCredential.t :=
  vc_of_subject [("id", VStr "s1"); ("nickname", VNone)].

(** Two ingestions of credentials for the same user, one after the
    other; the result is that of the second. *)
Definition process_twice (first second : VerifiableCredential.t)
  : M (DecompositionResult * list Conflict) :=
  process_credential first "user-123" "event-1" ;;;
  process_credential second "user-123" "event-2".

(** A subject mapping whose only key is the empty string. *)
Definition empty_key_subject : dict :=
  [(EmptyString, VDict [("a", VInt 1)])].

(* ================================================================= *)
(** * The flattening as the specification words it

    The leaves of a nested mapping with the keys that lead to them, depth
    first and in insertion order; a list is a leaf, held as its [str].
    A path becomes a name by joining its keys with dots. *)

Fixpoint spec_leaves (v : pyval) : list (list string * pyval) :=
  match v with
  | VDict items =>
      (fix loop (items : list (string * pyval)) : list (list string * pyval) :=
         match items with
         | [] => []
         | (key, value) :: rest =>
             (match value with
              | VDict _ => map (fun pv => (key :: fst pv, snd pv)) (spec_leaves value)
              | VList _ => [([key], VStr (py_str value))]
              | _ => [([key], value)]
              end ++ loop rest)%list
         end) items
  | _ => []
  end.

Definition dot_join (path : list string) : string := String.concat "." path.

Definition spec_flatten (d : dict) : list (string * pyval) :=
  map (fun pv => (dot_join (fst pv), snd pv)) (spec_leaves (VDict d)).

(** The subject attributes of the normalised OIDC event as the
    specification words them: of the six OIDC fields, in this order and
    under these names, those the payload has a value for. *)
Definition oidc_fields : list (string * string) :=
  [("sub", "id"); ("email", "email"); ("name", "name");
   ("given_name", "given_name"); ("family_name", "family_name");
   ("picture", "picture")].

Definition spec_subject_attributes (payload : dict) : dict :=
  flat_map (fun field =>
              match dict_get payload (fst field) with
              | Some VNone => []
              | Some v => [(snd field, v)]
              | None => []
              end)
           oidc_fields.

(** The compared string of a claim value as the specification words it:
    the [str] of the value, and the empty string for a value that is
    missing ([None] here) or absent ([VNone]). *)
Definition spec_stringified (v : option pyval) : string :=
  match v with
  | None => EmptyString
  | Some VNone => EmptyString
  | Some x => py_str x
  end.

(* ================================================================= *)
(** * Words for further properties of the code *)

Definition is_container (v : pyval) : bool :=
  match v with
  | VList _ => true
  | VDict _ => true
  | _ => false
  end.

Definition is_dict (v : pyval) : bool :=
  match v with
  | VDict _ => true
  | _ => false
  end.

(** A top-level item that is the subject's own identifier: the key
    [id] with a value that is not a mapping. *)
Definition is_subject_id_item (item : string * pyval) : bool :=
  (fst item =? "id") && negb (is_dict (snd item)).

(** The claim [claim_id] is supported by a credential that belongs to
    the user [user_id]. *)
Definition supported_for (g : Graph) (claim_id user_id : string) : Prop :=
  exists s cr b,
    In s (supports g) /\ sup_target s = claim_id
    /\ In cr (credentials g) /\ cred_node_id cr = sup_source s
    /\ In b (belongs_to g) /\ bt_source b = cred_node_id cr
    /\ bt_target b = user_id.

(** [g'] holds all that [g] holds, in the same order, and maybe more. *)
Definition graph_extends (g g' : Graph) : Prop :=
  (exists more, users g' = (users g ++ more)%list)
  /\ (exists more, credentials g' = (credentials g ++ more)%list)
  /\ (exists more, claims g' = (claims g ++ more)%list)
  /\ (exists more, belongs_to g' = (belongs_to g ++ more)%list)
  /\ (exists more, supports g' = (supports g ++ more)%list)
  /\ (exists more, contradicts g' = (contradicts g ++ more)%list).

(** The rows [create_claim_node] and [create_credential_node] write. *)
Definition claim_row_of (claim : ClaimNode.t) : ClaimRow :=
  mk_claim (ClaimNode.node_id claim) (ClaimNode.attribute claim)
           (ClaimNode.stored_value (ClaimNode.value claim))
           (ClaimNode.confidence claim) (ClaimNode.created_at claim).

Definition credential_row_of (credential : CredentialNode.t) : CredentialRow :=
  mk_credential (CredentialNode.node_id credential)
                (CredentialNode.issuer credential)
                (CredentialNode.credential_type credential)
                (option_map isoformat (CredentialNode.issuance_date credential))
                (CredentialNode.created_at credential).

(** The claim node is in the store, with a SUPPORTS edge from the
    credential. *)
Definition claim_stored (g : Graph) (credential_id : string)
           (claim : ClaimNode.t) : Prop :=
  In (claim_row_of claim) (claims g)
  /\ exists e, In e (supports g)
               /\ sup_source e = credential_id
               /\ sup_target e = ClaimNode.node_id claim.

(** The test [detect_conflicts] makes on a new claim and an existing
    record: another claim, and another compared string. *)
Definition in_conflict (new_claim : ClaimNode.t) (existing_claim : ExistingClaim)
  : bool :=
  negb (row_node_id existing_claim =? ClaimNode.node_id new_claim)
  && negb (existing_value_of existing_claim =? new_value_of new_claim).

(** The new claims with the existing records of the store that pass the
    test, in the order of the two loops. *)
Definition conflicting_pairs (g : Graph) (user_id : string)
           (new_claims : list ClaimNode.t) : list (ClaimNode.t * ExistingClaim) :=
  flat_map (fun new_claim =>
              map (pair new_claim)
                  (filter (in_conflict new_claim)
                          (existing_claims_of g user_id
                                              (ClaimNode.attribute new_claim))))
           new_claims.

(** What a conflict is between: the new claim, and the existing claim
    as a record. *)
Definition conflict_pair (c : Conflict) : ClaimNode.t * ExistingClaim :=
  (claim_a c,
   mk_existing (ClaimNode.node_id (claim_b c)) (ClaimNode.attribute (claim_b c))
               (Some (ClaimNode.value (claim_b c)))).

(** The conflict has its CONTRADICTS edge in the store: from the new
    claim to the existing one, under the conflict's identifier. *)
Definition has_edge (g : Graph) (c : Conflict) : Prop :=
  exists e,
    In e (contradicts g)
    /\ con_edge_id e = conflict_id c
    /\ con_source e = ClaimNode.node_id (claim_a c)
    /\ con_target e = ClaimNode.node_id (claim_b c)
    /\ con_confidence e = "1.0".

(** [_process_vc] from the parsed credential on, for a given
    [fromisoformat]. *)
Definition process_vc_with (fromisoformat : string -> option datetime)
           (vc : VerifiableCredential.t) (user_id event_id : string)
  : M (DecompositionResult * list Conflict) :=
  result <- decompose fromisoformat vc user_id event_id ;;
  conflicts <- detect_conflicts user_id (claim_nodes result) ;;
  ret (mk_result (credential_node result) (claim_nodes result)
                 (fragment_node result) (edges_created result)
                 (List.length conflicts),
       conflicts).

(** The store after [Jane] was ingested as the name of [user-123], and
    the claim nodes of a second credential, saying [John], decomposed
    into that store. *)
Definition jane_john_run : outcome DecompositionResult * World :=
  (decompose fromisoformat_basic (vc_of_subject [("name", VStr "Jane")])
             "user-123" "event-1" ;;;
   decompose fromisoformat_basic (vc_of_subject [("name", VStr "John")])
             "user-123" "event-2") world0.

Definition john_claims : list ClaimNode.t :=
  match fst jane_john_run with
  | Ok result => claim_nodes result
  | Raised _ => []
  end.

(** A claim node that was never stored, as the unit tests make them. *)
Definition unstored_john : ClaimNode.t :=
  ClaimNode.mk "new-1" CLAIM
               [("attribute", VStr "name"); ("value", VStr "John");
                ("confidence", VFloat "1.0")]
               (mk_datetime 2024 1 15 12 0 0 0 None) None
               "name" (VStr "John") "1.0".

(** The check that every one of the claim nodes is in the store. *)
Definition all_stored (g : Graph) (claim_nodes0 : list ClaimNode.t) : bool :=
  forallb (fun claim =>
             match match_claims g (ClaimNode.node_id claim) with
             | [] => false
             | _ => true
             end)
          claim_nodes0.

(** An OIDC payload whose [iss] and [email] are [None] (JSON [null]). *)
Definition null_issuer_payload : dict :=
  [("iss", VNone); ("sub", VStr "u1"); ("email", VNone);
   ("timestamp", VStr "2024-01-15T00:00:00Z")].

(** An OIDC payload with a subject, two names and a picture that is
    [None]. *)
Definition sample_oidc_payload : dict :=
  [("iss", VStr "https://idp.example"); ("sub", VStr "u1");
   ("name", VStr "Ann"); ("email", VStr "ann@example.org");
   ("picture", VNone); ("timestamp", VStr "2024-01-15T00:00:00Z")].

(** A credential payload without [credentialSubject] and without
    [issuer]. *)
Definition bare_payload : dict :=
  [("type", VList [VStr "VerifiableCredential"; VStr "EmployeeCredential"]);
   ("issuanceDate", VStr "2024-01-15T00:00:00Z")].

(** The subject mapping of the flattening example. *)
Definition alice_subject : dict :=
  [("name", VStr "Alice");
   ("address", VDict [("city", VStr "NY"); ("country", VStr "USA")])].

(* ================================================================= *)
(** * Facts on values and strings *)

Lemma append_assoc (a b c : string) : ((a ++ b) ++ c = a ++ (b ++ c))%string.
Proof.
  induction a as [|x a IH]; simpl; [reflexivity | now rewrite IH].
Qed.

Lemma append_nonempty_l (a b : string) :
  string_is_empty a = false -> string_is_empty (a ++ b) = false.
Proof. destruct a; simpl; [discriminate | reflexivity]. Qed.

Lemma dot_join_cons (key : string) (path : list string) :
  path <> [] -> dot_join (key :: path) = key ++ "." ++ dot_join path.
Proof.
  destruct path as [|k rest]; [congruence | reflexivity].
Qed.


(* ================================================================= *)
(** * Claim extraction *)

Lemma extract_claims_nil (prefix : string) : _extract_claims [] prefix = [].
Proof. reflexivity. Qed.

Lemma extract_claims_cons (key : string) (value : pyval) (rest : dict) (prefix : string) :
  _extract_claims ((key, value) :: rest) prefix =
  (match value with
   | VDict sub => _extract_claims sub (full_key_of prefix key)
   | VList _ => [(full_key_of prefix key, VStr (py_str value))]
   | _ => [(full_key_of prefix key, value)]
   end ++ _extract_claims rest prefix)%list.
Proof. destruct value; reflexivity. Qed.

Lemma spec_leaves_cons (key : string) (value : pyval) (rest : dict) :
  spec_leaves (VDict ((key, value) :: rest)) =
  (match value with
   | VDict _ => map (fun pv => (key :: fst pv, snd pv)) (spec_leaves value)
   | VList _ => [([key], VStr (py_str value))]
   | _ => [([key], value)]
   end ++ spec_leaves (VDict rest))%list.
Proof. reflexivity. Qed.

(** No leaf sits at the empty path. *)
Lemma spec_leaves_path_nonempty (v : pyval) :
  Forall (fun pv => fst pv <> []) (spec_leaves v).
Proof.
  destruct v as [| | | | | |items]; try constructor.
  induction items as [|[key value] rest IH]; [constructor|].
  rewrite spec_leaves_cons. apply Forall_app. split; [|exact IH].
  destruct value; try (repeat constructor; simpl; congruence).
  apply Forall_map. apply Forall_forall. intros pv _. simpl. congruence.
Qed.

(** Under a prefix that is not empty, every leaf is named by the
    prefix, a dot, and its dot-joined path. *)
Lemma extract_claims_under_prefix (v : pyval) :
  forall prefix, string_is_empty prefix = false ->
    extract_claims_of v prefix =
    map (fun pv => (prefix ++ "." ++ dot_join (fst pv), snd pv)) (spec_leaves v).
Proof.
  induction v as [| | | | | |items IH] using pyval_nested_ind;
    intros prefix Hp; try reflexivity.
  induction items as [|[key value] rest IHrest]; [reflexivity|].
  change (extract_claims_of (VDict ((key, value) :: rest)) prefix)
    with (_extract_claims ((key, value) :: rest) prefix).
  rewrite extract_claims_cons, spec_leaves_cons, map_app.
  inversion IH as [|? ? Hv Hrest]; subst.
  f_equal.
  - unfold full_key_of. rewrite Hp.
    destruct value; try reflexivity.
    unfold _extract_claims. cbn [snd] in Hv. rewrite Hv.
    + rewrite map_map. apply map_ext_in. intros pv Hin. simpl.
      rewrite dot_join_cons.
      * now rewrite !append_assoc.
      * pose proof (spec_leaves_path_nonempty (VDict items)) as Hne.
        rewrite Forall_forall in Hne. now apply Hne.
    + now apply append_nonempty_l.
  - apply IHrest. exact Hrest.
Qed.

(** X19.  When no top-level key is the empty string, the extractor
    yields the leaves of the mapping, depth first and in insertion
    order, each under the keys of its path joined by dots. *)
Lemma extract_claims_dot_joined (d : dict) :
  Forall (fun kv => string_is_empty (fst kv) = false) d ->
  _extract_claims d EmptyString = spec_flatten d.
Proof.
  unfold spec_flatten.
  induction d as [|[key value] rest IH]; intros Hkeys; [reflexivity|].
  inversion Hkeys as [|? ? Hkey Hrest]; subst. simpl in Hkey.
  rewrite extract_claims_cons, spec_leaves_cons, map_app.
  f_equal; [|now apply IH].
  destruct value; try reflexivity.
  unfold _extract_claims, full_key_of. simpl string_is_empty. cbv iota.
  rewrite extract_claims_under_prefix by exact Hkey.
  rewrite map_map. apply map_ext_in. intros pv Hin. simpl.
  rewrite dot_join_cons; [reflexivity|].
  pose proof (spec_leaves_path_nonempty (VDict items)) as Hne.
  rewrite Forall_forall in Hne. now apply Hne.
Qed.

(** The flattening example of the specification. *)
Example extract_claims_alice :
  _extract_claims
    [("name", VStr "Alice");
     ("address", VDict [("city", VStr "NY"); ("country", VStr "USA")])]
    EmptyString
  = [("name", VStr "Alice"); ("address.city", VStr "NY");
     ("address.country", VStr "USA")].
Proof. reflexivity. Qed.

(** A list is one pair, holding the [str] of the whole list. *)
Example extract_claims_list :
  _extract_claims [("tags", VList [VStr "a"; VInt 2])] EmptyString
  = [("tags", VStr "['a', 2]")].
Proof. reflexivity. Qed.

(** C3.  A mapping nested under an empty key is flattened without the
    dot: the extractor names the leaf of [{"": {"a": 1}}] [a], whereas
    its keys joined by dots are [.a]. *)
Theorem extract_claims_empty_key :
  _extract_claims empty_key_subject EmptyString = [("a", VInt 1)]
  /\ spec_flatten empty_key_subject = [(".a", VInt 1)]
  /\ _extract_claims empty_key_subject EmptyString <> spec_flatten empty_key_subject.
Proof.
  repeat split; try reflexivity.
  discriminate.
Qed.

(* ================================================================= *)
(** * Credential accessors *)


Lemma first_of_filter {A} (f : A -> bool) (l : list A) (default : A) :
  match filter f l with
  | first :: _ => first
  | [] => default
  end
  = match find f l with
    | Some x => x
    | None => default
    end.
Proof.
  induction l as [|x l IH]; simpl; [reflexivity|].
  destruct (f x); [reflexivity | exact IH].
Qed.

(** C5.  The credential type is the first element of the type list that
    differs from [VerifiableCredential], and [VerifiableCredential] when
    there is none, as for the empty list. *)
Theorem get_credential_type_first_specific :
  (forall vc : VerifiableCredential.t,
      VerifiableCredential.get_credential_type vc =
      match find (fun t => negb (t =? "VerifiableCredential"))
                 (VerifiableCredential.type vc) with
      | Some t => t
      | None => "VerifiableCredential"
      end)
  /\ VerifiableCredential.get_credential_type
       (with_types ["VerifiableCredential"; "UniversityDegreeCredential"])
     = "UniversityDegreeCredential"
  /\ VerifiableCredential.get_credential_type (with_types ["VerifiableCredential"])
     = "VerifiableCredential"
  /\ VerifiableCredential.get_credential_type (with_types [])
     = "VerifiableCredential".
Proof.
  split; [|repeat split].
  intros vc. unfold VerifiableCredential.get_credential_type.
  apply first_of_filter.
Qed.

(** What [find] finds is the first such element: all before it are the
    generic marker. *)
Lemma get_credential_type_position (vc : VerifiableCredential.t)
      (before after : list string) (t : string) :
  VerifiableCredential.type vc = (before ++ t :: after)%list ->
  Forall (fun t0 => t0 = "VerifiableCredential") before ->
  t <> "VerifiableCredential" ->
  VerifiableCredential.get_credential_type vc = t.
Proof.
  intros Htype Hbefore Ht.
  unfold VerifiableCredential.get_credential_type. rewrite Htype.
  clear Htype. induction Hbefore as [|t0 before H0 _ IH]; simpl.
  - apply String.eqb_neq in Ht. now rewrite Ht.
  - subst t0. simpl. exact IH.
Qed.

(** C6.  An issuer object gives its [id] and its [name]; a bare string
    is the issuer id, and there is no issuer name. *)
Theorem issuer_extraction (vc : VerifiableCredential.t) :
  (forall (d : dict) (issuer_id issuer_name : pyval),
      VerifiableCredential.issuer vc = VDict d ->
      dict_get d "id" = Some issuer_id ->
      dict_get d "name" = Some issuer_name ->
      VerifiableCredential.get_issuer_id vc = issuer_id
      /\ VerifiableCredential.get_issuer_name vc = issuer_name)
  /\ (forall s : string,
         VerifiableCredential.issuer vc = VStr s ->
         VerifiableCredential.get_issuer_id vc = VStr s
         /\ VerifiableCredential.get_issuer_name vc = VNone).
Proof.
  unfold VerifiableCredential.get_issuer_id, VerifiableCredential.get_issuer_name,
    dict_get_default.
  split.
  - intros d i n Hissuer Hid Hname. now rewrite Hissuer, Hid, Hname.
  - intros s Hissuer. now rewrite Hissuer.
Qed.

Lemma issuer_extraction_witness :
  (VerifiableCredential.get_issuer_id
     (with_issuer (VDict [("id", VStr "did:x"); ("name", VStr "Example U")]))
   = VStr "did:x"
   /\ VerifiableCredential.get_issuer_name
        (with_issuer (VDict [("id", VStr "did:x"); ("name", VStr "Example U")]))
      = VStr "Example U")
  /\ (VerifiableCredential.get_issuer_id (with_issuer (VStr "did:y")) = VStr "did:y"
      /\ VerifiableCredential.get_issuer_name (with_issuer (VStr "did:y")) = VNone).
Proof.
  split.
  - exact (proj1 (issuer_extraction
                    (with_issuer (VDict [("id", VStr "did:x"); ("name", VStr "Example U")])))
                 _ _ _ eq_refl eq_refl eq_refl).
  - exact (proj2 (issuer_extraction (with_issuer (VStr "did:y"))) _ eq_refl).
Defined.

(** C10.  An issuer object without the key [id] does not make
    [get_issuer_id] fail: the issuer id is the [str] of the whole
    object. *)
Theorem get_issuer_id_without_id (vc : VerifiableCredential.t) (d : dict) :
  VerifiableCredential.issuer vc = VDict d ->
  dict_get d "id" = None ->
  VerifiableCredential.get_issuer_id vc = VStr (py_str (VDict d)).
Proof.
  intros Hissuer Hid.
  unfold VerifiableCredential.get_issuer_id, dict_get_default.
  now rewrite Hissuer, Hid.
Qed.

Lemma get_issuer_id_without_id_witness :
  VerifiableCredential.get_issuer_id (with_issuer (VDict [("name", VStr "Example U")]))
  = VStr "{'name': 'Example U'}".
Proof.
  exact (get_issuer_id_without_id
           (with_issuer (VDict [("name", VStr "Example U")]))
           [("name", VStr "Example U")] eq_refl eq_refl).
Defined.

(* ================================================================= *)
(** * The OIDC normalisation *)

Lemma filter_present (payload : dict) (fields : list (string * string)) :
  filter (fun kv => negb (is_none (snd kv)))
         (map (fun field => (snd field, payload_get payload (fst field))) fields)
  = flat_map (fun field =>
                match dict_get payload (fst field) with
                | Some VNone => []
                | Some v => [(snd field, v)]
                | None => []
                end)
             fields.
Proof.
  induction fields as [|[src key] rest IH]; [reflexivity|].
  cbn [map filter flat_map fst snd]. rewrite IH.
  unfold payload_get, dict_get_default.
  destruct (dict_get payload src) as [v|]; [destruct v|]; reflexivity.
Qed.

(** What the normalisation computes.  The issuer is whatever the
    payload holds under [iss], a [None] included, and [unknown] only
    when the key is missing; the issuance date is whatever it holds
    under [timestamp], and the empty string when the key is missing; the
    subject attributes are the six OIDC fields whose value is not
    [None], [sub] under the key [id]. *)
Theorem oidc_normalisation (payload : dict) :
  dict_get (oidc_vc_payload payload) "issuer"
  = Some (match dict_get payload "iss" with
          | Some iss => iss
          | None => VStr "unknown"
          end)
  /\ dict_get (oidc_vc_payload payload) "issuanceDate"
     = Some (match dict_get payload "timestamp" with
             | Some timestamp => timestamp
             | None => VStr EmptyString
             end)
  /\ dict_get (oidc_vc_payload payload) "credentialSubject"
     = Some (VDict (spec_subject_attributes payload)).
Proof.
  repeat split.
  unfold oidc_vc_payload, spec_subject_attributes.
  change [("id", payload_get payload "sub");
          ("email", payload_get payload "email");
          ("name", payload_get payload "name");
          ("given_name", payload_get payload "given_name");
          ("family_name", payload_get payload "family_name");
          ("picture", payload_get payload "picture")]
    with (map (fun field => (snd field, payload_get payload (fst field))) oidc_fields).
  rewrite filter_present. reflexivity.
Qed.

(** The subject attributes hold a key exactly when it is the name of an
    OIDC field for which the payload has a value that is not [None]. *)
Lemma oidc_subject_attribute (payload : dict) (key : string) (v : pyval) :
  In (key, v) (spec_subject_attributes payload) <->
  (v <> VNone /\ exists src, In (src, key) oidc_fields /\ dict_get payload src = Some v).
Proof.
  unfold spec_subject_attributes. rewrite in_flat_map. split.
  - intros [[src k] [Hin Hkv]]. simpl in Hkv.
    destruct (dict_get payload src) as [x|] eqn:Hget; [|contradiction].
    assert (Hx : x <> VNone /\ (key, v) = (k, x)).
    { destruct x; simpl in Hkv; try contradiction;
        (destruct Hkv as [Hkv|[]]; inversion Hkv; subst; split; congruence). }
    destruct Hx as [Hx Heq]. inversion Heq; subst.
    split; [exact Hx|]. exists src. split; assumption.
  - intros [Hv [src [Hin Hget]]]. exists (src, key). split; [exact Hin|].
    simpl. rewrite Hget. destruct v; try (left; reflexivity). congruence.
Qed.

Example oidc_normalisation_example :
  oidc_vc_payload
    [("iss", VStr "https://idp.example"); ("sub", VStr "u1");
     ("name", VStr "Ann"); ("picture", VNone);
     ("timestamp", VStr "2024-01-15T00:00:00Z")]
  = [("@context", VList [VStr "https://www.w3.org/2018/credentials/v1"]);
     ("type", VList [VStr "VerifiableCredential"; VStr "OIDCCredential"]);
     ("issuer", VStr "https://idp.example");
     ("issuanceDate", VStr "2024-01-15T00:00:00Z");
     ("credentialSubject", VDict [("id", VStr "u1"); ("name", VStr "Ann")])].
Proof. reflexivity. Qed.

(** C8.  A [None] under [iss] is not taken as an absent issuer: for
    the payload with [iss] and [email] both [None], the normalised
    document drops the [email] but keeps [None] as issuer instead of
    [unknown], and the credential parsed from it has the issuer id
    [None], as a string. *)
Theorem oidc_null_issuer :
  dict_get (oidc_vc_payload null_issuer_payload) "issuer" = Some VNone
  /\ dict_get (oidc_vc_payload null_issuer_payload) "issuer"
     <> Some (VStr "unknown")
  /\ dict_get (oidc_vc_payload null_issuer_payload) "credentialSubject"
     = Some (VDict [("id", VStr "u1")])
  /\ option_map VerifiableCredential.get_issuer_id
                (credential_from_dict (oidc_vc_payload null_issuer_payload))
     = Some (VStr "None").
Proof.
  split; [reflexivity|]. split; [discriminate|]. split; reflexivity.
Qed.

(* ================================================================= *)
(** * Conflict resolution *)

(** C9.  [resolve_conflict] returns [True] and leaves the world, and so
    the graph store, as it was. *)
Theorem resolve_conflict_noop (conflict_id preferred_claim_id : string) (w : World) :
  resolve_conflict conflict_id preferred_claim_id w = (Ok true, w)
  /\ graph (snd (resolve_conflict conflict_id preferred_claim_id w)) = graph w.
Proof. split; reflexivity. Qed.

(* ================================================================= *)
(** * Running computations *)

Lemma bind_ok {A B} (m : M A) (f : A -> M B) (w w1 : World) (a : A) :
  m w = (Ok a, w1) -> bind m f w = f a w1.
Proof. intros H. unfold bind. now rewrite H. Qed.

Lemma bind_raised {A B} (m : M A) (f : A -> M B) (w w1 : World) (e : pyexc) :
  m w = (Raised e, w1) -> bind m f w = (Raised e, w1).
Proof. intros H. unfold bind. now rewrite H. Qed.

Lemma bind_ext {A B} (m : M A) (f g : A -> M B) (w : World) :
  (forall a w1, f a w1 = g a w1) -> bind m f w = bind m g w.
Proof.
  intros H. unfold bind. destruct (m w) as [[a|e] w1]; [apply H | reflexivity].
Qed.

Lemma mapM_cons_run {A B} (f : A -> M B) (x : A) (rest : list A) (w : World) :
  mapM f (x :: rest) w =
  match f x w with
  | (Ok y, w1) =>
      match mapM f rest w1 with
      | (Ok ys, w2) => (Ok (y :: ys), w2)
      | (Raised e, w2) => (Raised e, w2)
      end
  | (Raised e, w1) => (Raised e, w1)
  end.
Proof. reflexivity. Qed.

(** Drawing the edges never raises, makes one edge per row and leaves
    the graph alone. *)
Lemma draw_edges_ok {A B} (mk : string -> B) (rows : list A) :
  forall w : World,
  exists created w',
    draw_edges mk rows w = (Ok created, w')
    /\ graph w' = graph w
    /\ List.length created = List.length rows
    /\ Forall (fun e => exists edge_id, e = mk edge_id) created.
Proof.
  unfold draw_edges.
  induction rows as [|row rest IH]; intros w.
  - exists [], w. repeat split. constructor.
  - rewrite mapM_cons_run. cbv beta.
    remember (mapM _ rest) as draw_rest eqn:Hrest.
    unfold bind at 1, uuid4 at 1, ret at 1. subst draw_rest.
    destruct (IH (mk_world (graph w) (uuid_src w) (S (uuid_pos w))
                           (clock w) (clock_pos w)))
      as (created & w' & Hrun & Hgraph & Hlen & Hall).
    rewrite Hrun. exists (mk (uuid_src w (uuid_pos w)) :: created), w'.
    repeat split.
    + exact Hgraph.
    + simpl. now rewrite Hlen.
    + constructor; [now exists (uuid_src w (uuid_pos w)) | exact Hall].
Qed.

Lemma filter_app_hit {A} (f : A -> bool) (l : list A) (x : A) :
  f x = true -> filter f (l ++ [x]) <> [].
Proof.
  intros Hx Hnil. rewrite filter_app in Hnil. simpl in Hnil. rewrite Hx in Hnil.
  apply app_eq_nil in Hnil. destruct Hnil as [_ Hnil]. discriminate.
Qed.

Lemma list_prod_nonempty {A B} (l : list A) (l' : list B) :
  l <> [] -> l' <> [] -> list_prod l l' <> [].
Proof.
  destruct l as [|a l]; [congruence|]. destruct l' as [|b l']; [congruence|].
  intros _ _. simpl. discriminate.
Qed.

(* ================================================================= *)
(** * The store operations *)

Lemma create_user_node_ok (user_id : string) (w : World) :
  exists w',
    create_user_node user_id w = (Ok user_id, w')
    /\ match_users (graph w') user_id <> [].
Proof.
  unfold create_user_node, bind, get_graph.
  destruct (match_users (graph w) user_id) as [|u found] eqn:Hmatch.
  - eexists. split; [reflexivity|].
    unfold match_users. simpl. apply filter_app_hit. simpl. apply String.eqb_refl.
  - exists w. unfold ret, single_field. split.
    + assert (Hin : In u (match_users (graph w) user_id))
        by (rewrite Hmatch; now left).
      apply filter_In in Hin. destruct Hin as [_ Heq].
      apply String.eqb_eq in Heq. now rewrite Heq.
    + rewrite Hmatch. discriminate.
Qed.

Lemma credential_node_new_run (issuer : pyval) (credential_type : string)
      (issuance_date : option datetime) (w : World) :
  exists c w',
    CredentialNode.new issuer credential_type issuance_date w = (Ok c, w')
    /\ graph w' = graph w
    /\ CredentialNode.issuer c = issuer
    /\ CredentialNode.credential_type c = credential_type
    /\ CredentialNode.issuance_date c = issuance_date.
Proof. do 2 eexists. repeat split. Qed.

Lemma claim_node_new_run (given_id : option string) (attribute : string)
      (value : pyval) (confidence : pyfloat) (w : World) :
  exists c w',
    ClaimNode.new given_id attribute value confidence w = (Ok c, w')
    /\ graph w' = graph w
    /\ ClaimNode.attribute c = attribute
    /\ ClaimNode.value c = value
    /\ ClaimNode.confidence c = confidence
    /\ (forall i, given_id = Some i -> ClaimNode.node_id c = i).
Proof.
  destruct given_id as [i|]; do 2 eexists; repeat split.
  - intros i0 Hi. now inversion Hi.
  - discriminate.
Qed.

Lemma create_credential_node_ok (credential : CredentialNode.t)
      (user_id : string) (w : World) :
  match_users (graph w) user_id <> [] ->
  exists w',
    create_credential_node credential user_id w
    = (Ok (CredentialNode.node_id credential), w')
    /\ match_credentials (graph w') (CredentialNode.node_id credential) <> []
    /\ (exists row,
           In row (credentials (graph w'))
           /\ cred_node_id row = CredentialNode.node_id credential
           /\ cred_issuance_date row
              = option_map isoformat (CredentialNode.issuance_date credential)).
Proof.
  intros Huser.
  unfold create_credential_node, bind, get_graph, put_graph.
  destruct (match_users (graph w) user_id) as [|u found]; [congruence|].
  eexists. split; [reflexivity|]. simpl. split.
  - unfold match_credentials. simpl. rewrite filter_app. simpl.
    rewrite String.eqb_refl. intros Hnil. apply app_eq_nil in Hnil.
    destruct Hnil as [_ Hnil]. discriminate.
  - eexists. split; [apply in_or_app; right; left; reflexivity|].
    split; reflexivity.
Qed.

Lemma create_claim_node_run (claim : ClaimNode.t) (w : World) :
  exists w',
    create_claim_node claim w = (Ok (ClaimNode.node_id claim), w')
    /\ credentials (graph w') = credentials (graph w)
    /\ match_claims (graph w') (ClaimNode.node_id claim) <> [].
Proof.
  unfold create_claim_node, bind, get_graph, put_graph, single_field, ret.
  eexists. split; [reflexivity|]. split; [reflexivity|].
  unfold match_claims. simpl. apply filter_app_hit. simpl. apply String.eqb_refl.
Qed.

Lemma create_supports_edge_ok (credential_id claim_id : string) (w : World) :
  match_credentials (graph w) credential_id <> [] ->
  match_claims (graph w) claim_id <> [] ->
  exists edge_id w',
    create_supports_edge credential_id claim_id w = (Ok edge_id, w')
    /\ credentials (graph w') = credentials (graph w).
Proof.
  intros Hcred Hclaim.
  unfold create_supports_edge.
  rewrite (bind_ok _ _ w w (graph w)) by reflexivity.
  erewrite bind_ok by reflexivity.
  match goal with
  | |- context [draw_edges ?mk ?rows] =>
      destruct (draw_edges_ok mk rows
                  (mk_world (graph w) (uuid_src w) (uuid_pos w) (clock w)
                            (S (clock_pos w))))
        as (created & w1 & Hrun & Hgraph & Hlen & _)
  end.
  erewrite bind_ok by exact Hrun.
  erewrite bind_ok by reflexivity.
  destruct created as [|e created].
  - exfalso. simpl in Hlen. symmetry in Hlen. apply length_zero_iff_nil in Hlen.
    revert Hlen. now apply list_prod_nonempty.
  - do 2 eexists. split; reflexivity.
Qed.

(* ================================================================= *)
(** * Decomposition *)


Lemma decompose_claims_ok (credential_id : string) (claims : list (string * pyval)) :
  forall (claim_nodes : list ClaimNode.t) (edges_created : nat) (w : World),
    match_credentials (graph w) credential_id <> [] ->
    exists created w',
      decompose_claims credential_id claims claim_nodes edges_created w
      = (Ok ((claim_nodes ++ created)%list, edges_created + List.length created), w')
      /\ map claim_pair created = filter not_subject_id claims
      /\ Forall (fun c => ClaimNode.confidence c = "1.0") created
      /\ credentials (graph w') = credentials (graph w).
Proof.
  induction claims as [|[attribute value] rest IH]; intros claim_nodes edges_created w Hcred.
  - exists [], w. rewrite app_nil_r, Nat.add_0_r. repeat split. constructor.
  - cbn [decompose_claims filter]. unfold not_subject_id at 1. cbn [fst].
    destruct (attribute =? "id") eqn:Hid; cbn [negb].
    + now apply IH.
    + destruct (claim_node_new_run None attribute value "1.0" w)
        as (c & w1 & Hnew & Hg1 & Hattr & Hval & Hconf & _).
      erewrite bind_ok by exact Hnew.
      destruct (create_claim_node_run c w1) as (w2 & Hclaim & Hcreds2 & Hmatch2).
      erewrite bind_ok by exact Hclaim.
      destruct (create_supports_edge_ok credential_id (ClaimNode.node_id c) w2)
        as (edge_id & w3 & Hedge & Hcreds3).
      { unfold match_credentials in *. now rewrite Hcreds2, Hg1. }
      { exact Hmatch2. }
      erewrite bind_ok by exact Hedge.
      destruct (IH (claim_nodes ++ [c])%list (edges_created + 1) w3)
        as (created & w' & Hrun & Hpairs & Hconfs & Hcreds').
      { unfold match_credentials in *. now rewrite Hcreds3, Hcreds2, Hg1. }
      exists (c :: created), w'. repeat split.
      * rewrite Hrun. rewrite <- app_assoc. cbn [List.length app].
        now rewrite <- Nat.add_assoc.
      * cbn [map]. unfold claim_pair at 1. now rewrite Hattr, Hval, Hpairs.
      * now constructor.
      * now rewrite Hcreds', Hcreds3, Hcreds2, Hg1.
Qed.

Section DecomposerFacts.

Variable fromisoformat : string -> option datetime.

(** [decompose] returns, whatever the credential and the store, and
    its result is made of the credential's accessors, the parsed
    issuance date and the extracted pairs other than [id]. *)
Lemma decompose_returns (vc : VerifiableCredential.t)
      (user_id event_id : string) (w : World) :
  exists result w',
    decompose fromisoformat vc user_id event_id w = (Ok result, w')
    /\ edges_created result = List.length (claim_nodes result)
    /\ map claim_pair (claim_nodes result)
       = filter not_subject_id
                (_extract_claims (VerifiableCredential.credential_subject vc)
                                 EmptyString)
    /\ CredentialNode.issuance_date (credential_node result)
       = parse_issuance_date fromisoformat (VerifiableCredential.issuance_date vc)
    /\ CredentialNode.issuer (credential_node result)
       = VerifiableCredential.get_issuer_id vc
    /\ CredentialNode.credential_type (credential_node result)
       = VerifiableCredential.get_credential_type vc
    /\ (exists row,
           In row (credentials (graph w'))
           /\ cred_node_id row = CredentialNode.node_id (credential_node result)
           /\ cred_issuance_date row
              = option_map isoformat
                  (parse_issuance_date fromisoformat
                                       (VerifiableCredential.issuance_date vc))).
Proof.
  unfold decompose.
  destruct (create_user_node_ok user_id w) as (w1 & Huser & Hmatch1).
  erewrite bind_ok by exact Huser. cbv zeta.
  destruct (credential_node_new_run
              (VerifiableCredential.get_issuer_id vc)
              (VerifiableCredential.get_credential_type vc)
              (parse_issuance_date fromisoformat
                                   (VerifiableCredential.issuance_date vc)) w1)
    as (c & w2 & Hnew & Hg2 & Hissuer & Htype & Hdate).
  erewrite bind_ok by exact Hnew.
  set (c' := CredentialNode.set_property
               (CredentialNode.set_property c "event_id" (VStr event_id))
               "issuer_name" (VerifiableCredential.get_issuer_name vc)).
  destruct (create_credential_node_ok c' user_id w2)
    as (w3 & Hcred & Hmatch3 & row & Hin & Hrowid & Hrowdate).
  { now rewrite Hg2. }
  erewrite bind_ok by exact Hcred.
  destruct (decompose_claims_ok
              (CredentialNode.node_id c')
              (_extract_claims (VerifiableCredential.credential_subject vc)
                               EmptyString) [] 0 w3 Hmatch3)
    as (created & w4 & Hrun & Hpairs & _ & Hkept).
  erewrite bind_ok by exact Hrun.
  do 2 eexists. split; [reflexivity|]. cbn [edges_created claim_nodes
    credential_node fst snd app Nat.add].
  repeat split; try assumption.
  exists row. repeat split.
  - now rewrite Hkept.
  - exact Hrowid.
  - now rewrite Hrowdate; subst c'; cbn; rewrite Hdate.
Qed.

End DecomposerFacts.

(** C2.  [decompose] returns a result whose [edges_created] is the number
    of its claim nodes.  For the subject attributes [id], [name],
    [email] and [degree] with [type] and [name], the claim nodes are
    those of [name], [email], [degree.type] and [degree.name], with 4
    edges counted, and the store gains 4 SUPPORTS edges. *)
Theorem decompose_edges_created :
  (forall (fromisoformat : string -> option datetime)
          (vc : VerifiableCredential.t) (user_id event_id : string) (w : World),
      exists result w',
        decompose fromisoformat vc user_id event_id w = (Ok result, w')
        /\ edges_created result = List.length (claim_nodes result))
  /\ (forall (fromisoformat : string -> option datetime)
             (user_id event_id : string) (w : World),
         exists result w',
           decompose fromisoformat sample_vc user_id event_id w = (Ok result, w')
           /\ map claim_pair (claim_nodes result)
              = [("name", VStr "John Doe"); ("email", VStr "j@x.com");
                 ("degree.type", VStr "BS"); ("degree.name", VStr "CS")]
           /\ List.length (claim_nodes result) = 4
           /\ edges_created result = 4)
  /\ List.length
       (supports
          (graph (snd (decompose fromisoformat_basic sample_vc
                                 "user-123" "event-123" world0))))
     = 4.
Proof.
  split; [|split].
  - intros fromisoformat vc user_id event_id w.
    destruct (decompose_returns fromisoformat vc user_id event_id w)
      as (result & w' & Hrun & Hcount & _).
    now exists result, w'.
  - intros fromisoformat user_id event_id w.
    destruct (decompose_returns fromisoformat sample_vc user_id event_id w)
      as (result & w' & Hrun & Hcount & Hpairs & _).
    exists result, w'.
    assert (Hlen : List.length (claim_nodes result) = 4).
    { rewrite <- (length_map claim_pair), Hpairs. reflexivity. }
    repeat split; [exact Hrun | exact Hpairs | exact Hlen | now rewrite Hcount].
  - vm_compute. reflexivity.
Qed.

(** The issuance date of the test fixture ends in [Z] and is parsed as
    a date-time at offset zero. *)
Example decompose_trailing_z :
  str_replace_char "Z"%char "+00:00" "2024-01-15T00:00:00Z"
  = "2024-01-15T00:00:00+00:00"
  /\ parse_issuance_date fromisoformat_basic (Some "2024-01-15T00:00:00Z")
     = Some (mk_datetime 2024 1 15 0 0 0 0 (Some 0%Z)).
Proof. split; reflexivity. Qed.



(* ================================================================= *)
(** * Conflict detection *)


Lemma contradicts_added_refl (P : ContradictsEdge -> Prop) (g : Graph) :
  contradicts_added P g g.
Proof.
  repeat split. exists []. split; [now rewrite app_nil_r | constructor].
Qed.

Lemma contradicts_added_trans (P : ContradictsEdge -> Prop) (g1 g2 g3 : Graph) :
  contradicts_added P g1 g2 -> contradicts_added P g2 g3 ->
  contradicts_added P g1 g3.
Proof.
  intros (Hu & Hc & Hcl & Hb & Hs & a1 & Ha1 & HP1)
         (Hu' & Hc' & Hcl' & Hb' & Hs' & a2 & Ha2 & HP2).
  repeat split; try congruence.
  exists (a1 ++ a2)%list. split.
  - now rewrite Ha2, Ha1, app_assoc.
  - apply Forall_app. now split.
Qed.

Lemma contradicts_added_weaken (P Q : ContradictsEdge -> Prop) (g g' : Graph) :
  (forall e, P e -> Q e) -> contradicts_added P g g' -> contradicts_added Q g g'.
Proof.
  intros HPQ (Hu & Hc & Hcl & Hb & Hs & a & Ha & HP).
  repeat split; try assumption.
  exists a. split; [exact Ha|]. eapply Forall_impl; eauto.
Qed.

(** The existing claims do not depend on the CONTRADICTS edges. *)
Lemma existing_claims_of_added (P : ContradictsEdge -> Prop) (g g' : Graph)
      (user_id attribute : string) :
  contradicts_added P g g' ->
  existing_claims_of g' user_id attribute = existing_claims_of g user_id attribute.
Proof.
  intros (Hu & Hc & Hcl & Hb & Hs & _).
  unfold existing_claims_of, match_users, match_credentials.
  now rewrite Hu, Hc, Hcl, Hb, Hs.
Qed.

(** Whether it returns or raises, [create_contradicts_edge] adds only
    edges from the first claim to the second, with the given confidence,
    as many as there are pairs of such claim nodes. *)
Lemma create_contradicts_edge_effect (claim_a_id claim_b_id : string)
      (confidence : pyfloat) (w : World) :
  exists created w',
    create_contradicts_edge claim_a_id claim_b_id confidence w
    = (match created with
       | [] => Raised TypeError
       | e :: _ => Ok (con_edge_id e)
       end, w')
    /\ graph w' = add_contradicts (graph w) created
    /\ List.length created
       = List.length (list_prod (match_claims (graph w) claim_a_id)
                                (match_claims (graph w) claim_b_id))
    /\ Forall (fun e => con_source e = claim_a_id
                        /\ con_target e = claim_b_id
                        /\ con_confidence e = confidence) created.
Proof.
  unfold create_contradicts_edge.
  rewrite (bind_ok _ _ w w (graph w)) by reflexivity.
  erewrite bind_ok by reflexivity.
  match goal with
  | |- context [draw_edges ?mk ?rows] =>
      destruct (draw_edges_ok mk rows
                  (mk_world (graph w) (uuid_src w) (uuid_pos w) (clock w)
                            (S (clock_pos w))))
        as (created & w1 & Hrun & Hgraph & Hlen & Hall)
  end.
  erewrite bind_ok by exact Hrun.
  erewrite bind_ok by reflexivity.
  exists created, (with_graph w1 (add_contradicts (graph w) created)).
  repeat split.
  - now destruct created.
  - exact Hlen.
  - eapply Forall_impl; [|exact Hall].
    intros e [edge_id He]. subst e. repeat split.
Qed.


Lemma detect_existing_distinct (new_claim : ClaimNode.t)
      (existing : list ExistingClaim) :
  forall (conflicts : list Conflict) (w : World),
    Forall distinct_claims conflicts ->
    contradicts_added distinct_ends (graph w)
      (graph (snd (detect_existing new_claim existing conflicts w)))
    /\ all_distinct (fst (detect_existing new_claim existing conflicts w)).
Proof.
  induction existing as [|existing_claim rest IH]; intros conflicts w Hacc.
  - split; [apply contradicts_added_refl | exact Hacc].
  - cbn [detect_existing].
    destruct (row_node_id existing_claim =? ClaimNode.node_id new_claim) eqn:Hself;
      [now apply IH|].
    destruct (negb (existing_value_of existing_claim =? new_value_of new_claim));
      [|now apply IH].
    apply String.eqb_neq in Hself.
    destruct (create_contradicts_edge_effect
                (ClaimNode.node_id new_claim) (row_node_id existing_claim) "1.0" w)
      as (created & w1 & Hedge & Hgraph & _ & Hall).
    assert (Hadded : contradicts_added distinct_ends (graph w) (graph w1)).
    { rewrite Hgraph. repeat split. exists created. split; [reflexivity|].
      eapply Forall_impl; [|exact Hall].
      intros e (Hs & Ht & _). unfold distinct_ends. rewrite Hs, Ht. congruence. }
    destruct created as [|e created].
    { erewrite bind_raised by exact Hedge. split; [exact Hadded | exact I]. }
    erewrite bind_ok by exact Hedge.
    unfold row_value_item.
    destruct (row_value existing_claim) as [v|];
      [|erewrite bind_raised by reflexivity; split; [exact Hadded | exact I]].
    erewrite bind_ok by reflexivity.
    destruct (claim_node_new_run (Some (row_node_id existing_claim))
                                 (row_attribute existing_claim) v "1.0" w1)
      as (node_b & w2 & Hnew & Hg2 & _ & _ & _ & Hid).
    erewrite bind_ok by exact Hnew.
    erewrite bind_ok by reflexivity.
    match goal with
    | |- context [detect_existing new_claim rest ?acc ?w3] =>
        destruct (IH acc w3) as [Hstep Hres]
    end.
    + apply Forall_app. split; [exact Hacc|]. constructor; [|constructor].
      unfold distinct_claims. cbn [claim_a claim_b].
      rewrite (Hid _ eq_refl). congruence.
    + split; [|exact Hres].
      eapply contradicts_added_trans; [exact Hadded|].
      rewrite <- Hg2. exact Hstep.
Qed.

Lemma detect_new_distinct (user_id : string) (new_claims : list ClaimNode.t) :
  forall (conflicts : list Conflict) (w : World),
    Forall distinct_claims conflicts ->
    contradicts_added distinct_ends (graph w)
      (graph (snd (detect_new user_id new_claims conflicts w)))
    /\ all_distinct (fst (detect_new user_id new_claims conflicts w)).
Proof.
  induction new_claims as [|new_claim rest IH]; intros conflicts w Hacc.
  - split; [apply contradicts_added_refl | exact Hacc].
  - cbn [detect_new].
    erewrite bind_ok by reflexivity.
    match goal with
    | |- context [detect_existing new_claim ?existing conflicts] =>
        destruct (detect_existing_distinct new_claim existing conflicts w Hacc)
          as [Hstep Hres];
        destruct (detect_existing new_claim existing conflicts w)
          as [[found|e] w1] eqn:Hrun
    end.
    + erewrite bind_ok by exact Hrun.
      destruct (IH found w1 Hres) as [Hstep' Hres'].
      split; [|exact Hres'].
      eapply contradicts_added_trans; [exact Hstep | exact Hstep'].
    + erewrite bind_raised by exact Hrun. split; [exact Hstep | exact I].
Qed.

(** The loop over the existing claims passes over those with the new
    claim's identifier as if they were not there. *)
Lemma detect_existing_skips_self (new_claim : ClaimNode.t)
      (existing : list ExistingClaim) :
  forall (conflicts : list Conflict) (w : World),
    detect_existing new_claim existing conflicts w
    = detect_existing new_claim
        (filter (fun existing_claim =>
                   negb (row_node_id existing_claim =? ClaimNode.node_id new_claim))
                existing)
        conflicts w.
Proof.
  induction existing as [|existing_claim rest IH]; intros conflicts w;
    [reflexivity|].
  cbn [detect_existing filter].
  destruct (row_node_id existing_claim =? ClaimNode.node_id new_claim) eqn:Hself;
    cbn [negb detect_existing]; [apply IH|].
  rewrite Hself.
  destruct (negb (existing_value_of existing_claim =? new_value_of new_claim));
    [|apply IH].
  repeat (apply bind_ext; intros).
  apply IH.
Qed.

Lemma new_value_of_none (new_claim : ClaimNode.t) :
  ClaimNode.value new_claim = VNone -> new_value_of new_claim = EmptyString.
Proof. intros H. unfold new_value_of. now rewrite H. Qed.

Lemma new_value_of_truthy (new_claim : ClaimNode.t) :
  py_truthy (ClaimNode.value new_claim) = true ->
  new_value_of new_claim = py_str (ClaimNode.value new_claim).
Proof. intros H. unfold new_value_of. now rewrite H. Qed.

Lemma existing_value_of_missing (existing_claim : ExistingClaim) :
  row_value existing_claim = None ->
  existing_value_of existing_claim = EmptyString.
Proof. intros H. unfold existing_value_of. now rewrite H. Qed.

(** Where the detector compares the strings the specification means:
    for a new value that is [None] or truthy, and for an existing value
    that is not a stored absence. *)
Lemma new_value_of_spec (new_claim : ClaimNode.t) :
  ClaimNode.value new_claim = VNone \/ py_truthy (ClaimNode.value new_claim) = true ->
  new_value_of new_claim = spec_stringified (Some (ClaimNode.value new_claim)).
Proof.
  unfold new_value_of. intros [Hnone | Htruthy].
  - now rewrite Hnone.
  - rewrite Htruthy. now destruct (ClaimNode.value new_claim).
Qed.

Lemma existing_value_of_spec (existing_claim : ExistingClaim) :
  row_value existing_claim <> Some VNone ->
  existing_value_of existing_claim = spec_stringified (row_value existing_claim).
Proof.
  unfold existing_value_of. intros Hpresent.
  destruct (row_value existing_claim) as [v|]; [|reflexivity].
  destruct v; try reflexivity. congruence.
Qed.

(** Two different claims whose compared strings are equal: no edge, no
    conflict, the loop goes on as it was. *)
Lemma detect_existing_same_value (new_claim : ClaimNode.t)
      (existing_claim : ExistingClaim) (rest : list ExistingClaim)
      (conflicts : list Conflict) (w : World) :
  row_node_id existing_claim <> ClaimNode.node_id new_claim ->
  existing_value_of existing_claim = new_value_of new_claim ->
  detect_existing new_claim (existing_claim :: rest) conflicts w
  = detect_existing new_claim rest conflicts w.
Proof.
  intros Hid Hsame. cbn [detect_existing].
  apply String.eqb_neq in Hid. rewrite Hid, Hsame, String.eqb_refl.
  reflexivity.
Qed.

(** So two different claims whose values are present, the new one
    truthy, and print alike are not in conflict. *)
Lemma detect_existing_equal_present_values (new_claim : ClaimNode.t)
      (existing_claim : ExistingClaim) (rest : list ExistingClaim)
      (conflicts : list Conflict) (w : World) (v : pyval) :
  row_node_id existing_claim <> ClaimNode.node_id new_claim ->
  row_value existing_claim = Some v ->
  v <> VNone ->
  py_truthy (ClaimNode.value new_claim) = true ->
  spec_stringified (Some v) = spec_stringified (Some (ClaimNode.value new_claim)) ->
  detect_existing new_claim (existing_claim :: rest) conflicts w
  = detect_existing new_claim rest conflicts w.
Proof.
  intros Hid Hrow Hv Htruthy Hsame.
  apply detect_existing_same_value; [exact Hid|].
  rewrite existing_value_of_spec by (rewrite Hrow; congruence).
  rewrite new_value_of_spec by now right.
  now rewrite Hrow.
Qed.

(** Two different stored claims whose compared strings differ: edges
    from the new claim to the existing one with confidence 1.0, at least
    one, and one conflict that holds both claims and the attribute. *)
Lemma detect_existing_differing (new_claim : ClaimNode.t)
      (existing_claim : ExistingClaim) (rest : list ExistingClaim)
      (conflicts : list Conflict) (w : World) (v : pyval) :
  row_node_id existing_claim <> ClaimNode.node_id new_claim ->
  existing_value_of existing_claim <> new_value_of new_claim ->
  row_value existing_claim = Some v ->
  match_claims (graph w) (ClaimNode.node_id new_claim) <> [] ->
  match_claims (graph w) (row_node_id existing_claim) <> [] ->
  exists conflict w1 edge edges,
    detect_existing new_claim (existing_claim :: rest) conflicts w
    = detect_existing new_claim rest (conflicts ++ [conflict])%list w1
    /\ graph w1 = add_contradicts (graph w) (edge :: edges)
    /\ Forall (fun e => con_source e = ClaimNode.node_id new_claim
                        /\ con_target e = row_node_id existing_claim
                        /\ con_confidence e = "1.0") (edge :: edges)
    /\ conflict_id conflict = con_edge_id edge
    /\ attribute conflict = ClaimNode.attribute new_claim
    /\ claim_a conflict = new_claim
    /\ ClaimNode.node_id (claim_b conflict) = row_node_id existing_claim
    /\ ClaimNode.attribute (claim_b conflict) = row_attribute existing_claim
    /\ ClaimNode.value (claim_b conflict) = v.
Proof.
  intros Hid Hdiff Hvalue Hnew Hold. cbn [detect_existing].
  apply String.eqb_neq in Hid. apply String.eqb_neq in Hdiff.
  rewrite Hid, Hdiff. cbn [negb].
  destruct (create_contradicts_edge_effect
              (ClaimNode.node_id new_claim) (row_node_id existing_claim) "1.0" w)
    as (created & w1 & Hedge & Hgraph & Hlen & Hall).
  destruct created as [|edge edges].
  { exfalso. symmetry in Hlen. apply length_zero_iff_nil in Hlen.
    revert Hlen. now apply list_prod_nonempty. }
  erewrite bind_ok by exact Hedge.
  unfold row_value_item. rewrite Hvalue.
  erewrite bind_ok by reflexivity.
  destruct (claim_node_new_run (Some (row_node_id existing_claim))
                               (row_attribute existing_claim) v "1.0" w1)
    as (node_b & w2 & Hrun & Hg2 & Hattr & Hval & _ & Hnode).
  erewrite bind_ok by exact Hrun.
  erewrite bind_ok by reflexivity.
  do 2 eexists. exists edge, edges. split; [reflexivity|].
  cbn [graph conflict_id attribute claim_a claim_b].
  repeat split; try assumption.
  - now rewrite Hg2.
  - now apply Hnode.
Qed.

(** C4.  An existing claim with the new claim's identifier is passed
    over: the loop runs as if it were not among the existing claims, so
    no edge and no conflict ever joins a claim with itself, whatever
    the values.  A credential that says [age] is 0 shows it: its new
    claim is found in the store with the value [0] while the detector
    takes the new value to be the empty string, and no conflict comes of
    it. *)
Theorem detect_conflicts_skips_self :
  (forall (new_claim : ClaimNode.t) (existing : list ExistingClaim)
          (conflicts : list Conflict) (w : World),
      detect_existing new_claim existing conflicts w
      = detect_existing new_claim
          (filter (fun existing_claim =>
                     negb (row_node_id existing_claim =? ClaimNode.node_id new_claim))
                  existing)
          conflicts w)
  /\ (forall (user_id : string) (new_claims : list ClaimNode.t) (w : World),
         contradicts_added distinct_ends (graph w)
           (graph (snd (detect_conflicts user_id new_claims w)))
         /\ all_distinct (fst (detect_conflicts user_id new_claims w)))
  /\ match decompose fromisoformat_basic zero_age_vc "user-123" "event-1" world0 with
     | (Ok result, w1) =>
         match claim_nodes result with
         | [new_claim] =>
             map (fun r => (row_node_id r, row_value r))
                 (existing_claims_of (graph w1) "user-123" "age")
             = [(ClaimNode.node_id new_claim, Some (VStr "0"))]
             /\ new_value_of new_claim = EmptyString
             /\ fst (detect_conflicts "user-123" [new_claim] w1) = Ok []
             /\ contradicts
                  (graph (snd (detect_conflicts "user-123" [new_claim] w1))) = []
         | _ => False
         end
     | _ => False
     end.
Proof.
  split; [|split].
  - intros. apply detect_existing_skips_self.
  - intros user_id new_claims w. apply detect_new_distinct. constructor.
  - vm_compute. repeat split.
Qed.

(** The conflict examples of the specification, run through the store:
    [Jane] then [John] gives one conflict on [name] and one edge; [John]
    twice gives none. *)
Example detect_conflicts_differing_names :
  match process_twice (vc_of_subject [("name", VStr "Jane")])
                      (vc_of_subject [("name", VStr "John")]) world0 with
  | (Ok (_, [conflict]), w') =>
      attribute conflict = "name"
      /\ ClaimNode.value (claim_a conflict) = VStr "John"
      /\ ClaimNode.value (claim_b conflict) = VStr "Jane"
      /\ map con_confidence (contradicts (graph w')) = ["1.0"]
  | _ => False
  end.
Proof. vm_compute. repeat split. Qed.

Example detect_conflicts_same_names :
  match process_twice (vc_of_subject [("name", VStr "John")])
                      (vc_of_subject [("name", VStr "John")]) world0 with
  | (Ok (_, conflicts), w') => conflicts = [] /\ contradicts (graph w') = []
  | _ => False
  end.
Proof. vm_compute. repeat split. Qed.

(** C1.  The same credential, saying [age] is 0, ingested twice: the
    second claim is compared as the empty string against the stored [0]
    of the first, and the two claims of equal value are reported as a
    conflict, with a CONTRADICTS edge. *)
Theorem detect_conflicts_equal_zero_values :
  match process_twice zero_age_vc zero_age_vc world0 with
  | (Ok (_, [conflict]), w') =>
      attribute conflict = "age"
      /\ ClaimNode.value (claim_a conflict) = VInt 0
      /\ ClaimNode.value (claim_b conflict) = VStr "0"
      /\ spec_stringified (Some (ClaimNode.value (claim_a conflict))) = "0"
      /\ spec_stringified (Some (ClaimNode.value (claim_b conflict))) = "0"
      /\ new_value_of (claim_a conflict) = EmptyString
      /\ ClaimNode.node_id (claim_a conflict) <> ClaimNode.node_id (claim_b conflict)
      /\ map (fun e => (con_source e, con_target e)) (contradicts (graph w'))
         = [(ClaimNode.node_id (claim_a conflict),
             ClaimNode.node_id (claim_b conflict))]
  | _ => False
  end.
Proof. vm_compute. repeat split. discriminate. Qed.

(** Likewise for a value that is absent on both sides: the stored
    absence is compared as the string [None], the new one as the empty
    string. *)
Example detect_conflicts_two_absent_values :
  match process_twice null_nickname_vc null_nickname_vc world0 with
  | (Ok (_, [conflict]), w') =>
      attribute conflict = "nickname"
      /\ ClaimNode.value (claim_a conflict) = VNone
      /\ ClaimNode.value (claim_b conflict) = VNone
      /\ spec_stringified (Some (ClaimNode.value (claim_a conflict)))
         = spec_stringified (Some (ClaimNode.value (claim_b conflict)))
      /\ List.length (contradicts (graph w')) = 1
  | _ => False
  end.
Proof. vm_compute. repeat split. Qed.

(* ================================================================= *)
(** * More on claim extraction *)

Lemma extract_claims_app (d1 d2 : dict) (prefix : string) :
  _extract_claims (d1 ++ d2)%list prefix
  = (_extract_claims d1 prefix ++ _extract_claims d2 prefix)%list.
Proof.
  induction d1 as [|[key value] rest IH]; [reflexivity|].
  cbn [app]. rewrite !extract_claims_cons, IH. now rewrite app_assoc.
Qed.

(** X1.  An attribute whose value is an empty mapping gives no claim:
    the extraction is that of the mapping without it. *)
Theorem extract_claims_empty_mapping (d1 d2 : dict) (key prefix : string) :
  _extract_claims (d1 ++ (key, VDict []) :: d2)%list prefix
  = _extract_claims (d1 ++ d2)%list prefix.
Proof.
  rewrite !extract_claims_app, extract_claims_cons. reflexivity.
Qed.

Lemma extract_claims_of_atomic (v : pyval) :
  forall prefix,
    Forall (fun claim => is_container (snd claim) = false)
           (extract_claims_of v prefix).
Proof.
  induction v as [| | | | | |items IH] using pyval_nested_ind;
    intros prefix; try constructor.
  induction items as [|[key value] rest IHrest]; [constructor|].
  change (extract_claims_of (VDict ((key, value) :: rest)) prefix)
    with (_extract_claims ((key, value) :: rest) prefix).
  rewrite extract_claims_cons.
  inversion IH as [|? ? Hvalue Hrest]; subst.
  apply Forall_app. split; [|now apply IHrest].
  destruct value; try (repeat constructor).
  apply Hvalue.
Qed.

Lemma extract_claims_of_values (v : pyval) :
  forall prefix1 prefix2,
    map snd (extract_claims_of v prefix1) = map snd (extract_claims_of v prefix2).
Proof.
  induction v as [| | | | | |items IH] using pyval_nested_ind;
    intros prefix1 prefix2; try reflexivity.
  induction items as [|[key value] rest IHrest]; [reflexivity|].
  change (extract_claims_of (VDict ((key, value) :: rest)) ?p)
    with (_extract_claims ((key, value) :: rest) p).
  rewrite !extract_claims_cons, !map_app.
  inversion IH as [|? ? Hvalue Hrest]; subst.
  f_equal; [|now apply IHrest].
  destruct value; try reflexivity.
  apply Hvalue.
Qed.

(** X2.  No extracted value is a list or a mapping, and the values and
    their order do not depend on the prefix: the prefix only names
    them. *)
Theorem extract_claims_atomic_values (d : dict) (prefix : string) :
  Forall (fun claim => is_container (snd claim) = false)
         (_extract_claims d prefix)
  /\ map snd (_extract_claims d prefix) = map snd (_extract_claims d EmptyString).
Proof.
  split.
  - apply extract_claims_of_atomic.
  - apply extract_claims_of_values.
Qed.

Lemma string_mem_app (c : ascii) (a b : string) :
  string_mem c (a ++ b) = string_mem c a || string_mem c b.
Proof.
  induction a as [|x a IH]; [reflexivity|].
  simpl. rewrite IH. now rewrite orb_assoc.
Qed.

Lemma dotted_is_not_id (prefix name : string) :
  (prefix ++ "." ++ name =? "id") = false.
Proof.
  apply String.eqb_neq. intros Heq.
  assert (Hdot : string_mem "."%char (prefix ++ "." ++ name) = true).
  { rewrite string_mem_app. simpl. apply orb_true_r. }
  rewrite Heq in Hdot. discriminate.
Qed.

(** Under a prefix that is not empty, nothing extracted is named [id]. *)
Lemma extract_claims_nested_kept (d : dict) (prefix : string) :
  string_is_empty prefix = false ->
  filter not_subject_id (_extract_claims d prefix) = _extract_claims d prefix.
Proof.
  intros Hprefix. unfold _extract_claims.
  rewrite extract_claims_under_prefix by exact Hprefix.
  induction (spec_leaves (VDict d)) as [|leaf leaves IH]; [reflexivity|].
  cbn [map filter]. unfold not_subject_id at 1. cbn [fst].
  rewrite dotted_is_not_id. cbn [negb]. now rewrite IH.
Qed.

(** X3.  Of the extracted pairs only the subject's own identifier is
    left out: for a subject mapping without empty keys, the pairs that
    become claims are those extracted from the mapping without its
    top-level [id] items that are not mappings.  An [id] inside a nested
    mapping, and the content of a mapping under the key [id], are
    claims. *)
Theorem only_subject_id_is_skipped (d : dict) :
  Forall (fun item => string_is_empty (fst item) = false) d ->
  filter not_subject_id (_extract_claims d EmptyString)
  = _extract_claims (filter (fun item => negb (is_subject_id_item item)) d)
                    EmptyString.
Proof.
  induction d as [|[key value] rest IH]; intros Hkeys; [reflexivity|].
  inversion Hkeys as [|? ? Hkey Hrest]; subst. cbn [fst] in Hkey.
  rewrite extract_claims_cons, filter_app, (IH Hrest).
  cbn [filter].
  replace (is_subject_id_item (key, value))
    with ((key =? "id") && negb (is_dict value)) by reflexivity.
  unfold full_key_of. cbn [string_is_empty].
  destruct value; cbn [is_dict negb];
    rewrite ?andb_true_r, ?andb_false_r; cbn [negb].
  1-6: cbn [filter]; unfold not_subject_id at 1; cbn [fst];
    destruct (key =? "id"); cbn [negb app];
    [reflexivity | now rewrite extract_claims_cons].
  rewrite extract_claims_cons.
  unfold full_key_of. cbn [string_is_empty].
  now rewrite extract_claims_nested_kept by exact Hkey.
Qed.

Lemma only_subject_id_is_skipped_witness :
  filter not_subject_id
         (_extract_claims
            [("id", VStr "s1");
             ("degree", VDict [("id", VStr "d7"); ("name", VStr "CS")])]
            EmptyString)
  = [("degree.id", VStr "d7"); ("degree.name", VStr "CS")].
Proof.
  rewrite only_subject_id_is_skipped.
  - reflexivity.
  - repeat constructor.
Defined.

(* ================================================================= *)
(** * More on the store operations *)

Lemma graph_with_graph (w : World) (g : Graph) : graph (with_graph w g) = g.
Proof. reflexivity. Qed.

Lemma match_users_hit (g : Graph) (user_id : string) (u : UserRow) :
  In u (match_users g user_id) -> In u (users g) /\ user_node_id u = user_id.
Proof.
  unfold match_users. rewrite filter_In. intros [Hin Heq].
  split; [exact Hin | now apply String.eqb_eq].
Qed.

(** X4.  [create_user_node] is a get-or-create: it returns the
    identifier, adds one user node when there is none with it and
    nothing otherwise, keeps every node that was there with its creation
    time, touches nothing but the users, and a second call changes
    nothing at all. *)
Theorem create_user_node_idempotent (user_id : string) (w : World) :
  exists w1,
    create_user_node user_id w = (Ok user_id, w1)
    /\ create_user_node user_id w1 = (Ok user_id, w1)
    /\ users (graph w1)
       = (users (graph w)
            ++ match match_users (graph w) user_id with
               | [] => [mk_user user_id (clock w (clock_pos w))]
               | _ => []
               end)%list
    /\ List.length (match_users (graph w1) user_id)
       = Nat.max 1 (List.length (match_users (graph w) user_id))
    /\ credentials (graph w1) = credentials (graph w)
    /\ claims (graph w1) = claims (graph w)
    /\ belongs_to (graph w1) = belongs_to (graph w)
    /\ supports (graph w1) = supports (graph w)
    /\ contradicts (graph w1) = contradicts (graph w).
Proof.
  destruct (match_users (graph w) user_id) as [|u found] eqn:Hmatch.
  - assert (Hrun : create_user_node user_id w
                   = (Ok user_id,
                      with_graph
                        (mk_world (graph w) (uuid_src w) (uuid_pos w) (clock w)
                                  (S (clock_pos w)))
                        (set_users (graph w)
                           (users (graph w)
                              ++ [mk_user user_id (clock w (clock_pos w))])%list))).
    { unfold create_user_node, bind, get_graph. now rewrite Hmatch. }
    eexists. split; [exact Hrun|].
    assert (Hnow : forall w0 : World,
               match_users
                 (graph (with_graph w0
                           (set_users (graph w)
                              (users (graph w)
                                 ++ [mk_user user_id (clock w (clock_pos w))])%list)))
                 user_id
               = [mk_user user_id (clock w (clock_pos w))]).
    { intros w0. unfold match_users in *. cbn [graph with_graph set_users users].
      rewrite filter_app, Hmatch. cbn [filter app user_node_id].
      now rewrite String.eqb_refl. }
    split; [|repeat split].
    + unfold create_user_node, bind, get_graph. rewrite Hnow. reflexivity.
    + rewrite Hnow. reflexivity.
  - exists w.
    assert (Hid : user_node_id u = user_id).
    { apply (match_users_hit (graph w)). rewrite Hmatch. now left. }
    assert (Hrun : create_user_node user_id w = (Ok user_id, w)).
    { unfold create_user_node, bind, get_graph. rewrite Hmatch.
      unfold ret, single_field. now rewrite Hid. }
    split; [exact Hrun|]. split; [exact Hrun|].
    split; [cbv iota; now rewrite app_nil_r|].
    repeat split. rewrite Hmatch. cbn [List.length].
    rewrite Nat.max_r by lia. reflexivity.
Qed.

Lemma add_nothing (g : Graph) :
  add_credentials g [] [] = g /\ add_supports g [] = g /\ add_contradicts g [] = g.
Proof.
  destruct g. unfold add_credentials, add_supports, add_contradicts.
  cbn. now rewrite !app_nil_r.
Qed.

(** X5.  A credential for a user that has no node is not stored:
    [create_credential_node] raises [TypeError] (there is no record to
    subscript) and the graph is as before. *)
Theorem create_credential_node_unknown_user (credential : CredentialNode.t)
        (user_id : string) (w : World) :
  match_users (graph w) user_id = [] ->
  exists w',
    create_credential_node credential user_id w = (Raised TypeError, w')
    /\ graph w' = graph w.
Proof.
  intros Hnone.
  unfold create_credential_node, bind, get_graph, put_graph.
  rewrite Hnone. cbn [map single_field raise].
  eexists. split; [reflexivity|].
  rewrite graph_with_graph. apply add_nothing.
Qed.

Lemma create_credential_node_unknown_user_witness :
  exists w',
    create_credential_node
      (CredentialNode.mk "c1" CREDENTIAL [] (clock world0 0) None
                         (VStr "did:x") "VerifiableCredential" None)
      "user-123" world0
    = (Raised TypeError, w')
    /\ graph w' = empty_graph.
Proof.
  exact (create_credential_node_unknown_user _ "user-123" world0 eq_refl).
Defined.

Lemma list_prod_nil_r {A B} (l : list A) : list_prod l (@nil B) = [].
Proof. induction l as [|a l IH]; [reflexivity | exact IH]. Qed.

Lemma draw_edges_nil {A B} (mk : string -> B) (w : World) :
  draw_edges mk (@nil A) w = (Ok [], w).
Proof. reflexivity. Qed.

(** X6.  A SUPPORTS edge needs both its ends: when the credential or
    the claim is not stored, [create_supports_edge] raises [TypeError]
    and adds no edge. *)
Theorem create_supports_edge_missing_node (credential_id claim_id : string)
        (w : World) :
  match_credentials (graph w) credential_id = []
  \/ match_claims (graph w) claim_id = [] ->
  exists w',
    create_supports_edge credential_id claim_id w = (Raised TypeError, w')
    /\ graph w' = graph w.
Proof.
  intros Hmissing.
  assert (Hnone : list_prod (match_credentials (graph w) credential_id)
                            (match_claims (graph w) claim_id) = []).
  { destruct Hmissing as [H | H]; rewrite H;
      [reflexivity | apply list_prod_nil_r]. }
  unfold create_supports_edge.
  rewrite (bind_ok _ _ w w (graph w)) by reflexivity.
  erewrite bind_ok by reflexivity.
  rewrite Hnone.
  erewrite bind_ok by apply draw_edges_nil.
  erewrite bind_ok by reflexivity.
  eexists. split; [reflexivity|].
  rewrite graph_with_graph. apply add_nothing.
Qed.

Lemma create_supports_edge_missing_node_witness :
  exists w',
    create_supports_edge "c1" "k1" world0 = (Raised TypeError, w')
    /\ graph w' = empty_graph.
Proof.
  exact (create_supports_edge_missing_node "c1" "k1" world0 (or_introl eq_refl)).
Defined.

Lemma create_contradicts_edge_missing_node (claim_a_id claim_b_id : string)
      (confidence : pyfloat) (w : World) :
  match_claims (graph w) claim_a_id = []
  \/ match_claims (graph w) claim_b_id = [] ->
  exists w',
    create_contradicts_edge claim_a_id claim_b_id confidence w
    = (Raised TypeError, w')
    /\ graph w' = graph w.
Proof.
  intros Hmissing.
  destruct (create_contradicts_edge_effect claim_a_id claim_b_id confidence w)
    as (created & w' & Hrun & Hgraph & Hlen & _).
  assert (Hnone : created = []).
  { apply length_zero_iff_nil. rewrite Hlen.
    destruct Hmissing as [H | H]; rewrite H;
      [reflexivity | now rewrite list_prod_nil_r]. }
  subst created. exists w'. split; [exact Hrun|].
  rewrite Hgraph. apply add_nothing.
Qed.

(** The records of [find_existing_claims], one per path of the query. *)
Lemma in_existing_claims_of (g : Graph) (user_id attribute0 : string)
      (row : ExistingClaim) :
  In row (existing_claims_of g user_id attribute0) <->
  exists u c s cr b,
    In u (users g) /\ user_node_id u = user_id
    /\ In c (claims g) /\ claim_attribute c = attribute0
    /\ In s (supports g) /\ sup_target s = claim_node_id c
    /\ In cr (credentials g) /\ cred_node_id cr = sup_source s
    /\ In b (belongs_to g) /\ bt_source b = cred_node_id cr
    /\ bt_target b = user_id
    /\ row = mk_existing (claim_node_id c) (claim_attribute c)
                         (Some (opt_str (claim_value c))).
Proof.
  unfold existing_claims_of, match_users, match_credentials. split.
  - intros Hin.
    apply in_flat_map in Hin. destruct Hin as (u & Hu & Hin).
    apply in_flat_map in Hin. destruct Hin as (c & Hc & Hin).
    apply in_flat_map in Hin. destruct Hin as (s & Hs & Hin).
    apply in_flat_map in Hin. destruct Hin as (cr & Hcr & Hin).
    apply in_flat_map in Hin. destruct Hin as (b & Hb & Hin).
    apply filter_In in Hu, Hc, Hs, Hcr, Hb.
    destruct Hu as [Hu Hu'], Hc as [Hc Hc'], Hs as [Hs Hs'],
             Hcr as [Hcr Hcr'], Hb as [Hb Hb'].
    apply andb_true_iff in Hb'. destruct Hb' as [Hb1 Hb2].
    apply String.eqb_eq in Hu', Hc', Hs', Hcr', Hb1, Hb2.
    destruct Hin as [Hrow|[]].
    exists u, c, s, cr, b. repeat split; try assumption; try congruence.
  - intros (u & c & s & cr & b & Hu & Hu' & Hc & Hc' & Hs & Hs' & Hcr & Hcr'
            & Hb & Hb1 & Hb2 & Hrow).
    apply in_flat_map. exists u. split.
    { apply filter_In. split; [exact Hu | now apply String.eqb_eq]. }
    apply in_flat_map. exists c. split.
    { apply filter_In. split; [exact Hc | now apply String.eqb_eq]. }
    apply in_flat_map. exists s. split.
    { apply filter_In. split; [exact Hs | now apply String.eqb_eq]. }
    apply in_flat_map. exists cr. split.
    { apply filter_In. split; [exact Hcr | now apply String.eqb_eq]. }
    apply in_flat_map. exists b. split.
    { apply filter_In. split; [exact Hb|].
      apply andb_true_iff. split; apply String.eqb_eq; congruence. }
    left. now symmetry.
Qed.

Lemma match_claims_in (g : Graph) (c : ClaimRow) :
  In c (claims g) -> match_claims g (claim_node_id c) <> [].
Proof.
  intros Hin Hnil.
  assert (Hc : In c (match_claims g (claim_node_id c))).
  { apply filter_In. split; [exact Hin | apply String.eqb_refl]. }
  rewrite Hnil in Hc. contradiction.
Qed.

(** X7.  [find_existing_claims] reads only: it returns with the world
    as it was.  Each of its records has the attribute asked for, holds
    the key [value], and names a stored claim that a credential of the
    user supports. *)
Theorem find_existing_claims_scope (user_id attribute0 : string) (w : World) :
  exists rows,
    find_existing_claims user_id attribute0 w = (Ok rows, w)
    /\ Forall (fun row =>
                 row_attribute row = attribute0
                 /\ row_value row <> None
                 /\ match_claims (graph w) (row_node_id row) <> []
                 /\ match_users (graph w) user_id <> []
                 /\ supported_for (graph w) (row_node_id row) user_id)
              rows.
Proof.
  exists (existing_claims_of (graph w) user_id attribute0).
  split; [reflexivity|].
  apply Forall_forall. intros row Hin.
  apply in_existing_claims_of in Hin.
  destruct Hin as (u & c & s & cr & b & Hu & Hu' & Hc & Hc' & Hs & Hs' & Hcr & Hcr'
                   & Hb & Hb1 & Hb2 & Hrow).
  subst row. cbn [row_attribute row_value row_node_id].
  split; [exact Hc'|]. split; [discriminate|].
  split; [now apply match_claims_in|]. split.
  - intros Hnil.
    assert (Hin : In u (match_users (graph w) user_id)).
    { apply filter_In. split; [exact Hu | now apply String.eqb_eq]. }
    rewrite Hnil in Hin. contradiction.
  - exists s, cr, b. repeat split; assumption.
Qed.

(* ================================================================= *)
(** * What decomposition writes *)

Lemma graph_extends_refl (g : Graph) : graph_extends g g.
Proof. repeat split; exists []; now rewrite app_nil_r. Qed.

Lemma graph_extends_trans (g1 g2 g3 : Graph) :
  graph_extends g1 g2 -> graph_extends g2 g3 -> graph_extends g1 g3.
Proof.
  intros ([a1 H1] & [a2 H2] & [a3 H3] & [a4 H4] & [a5 H5] & [a6 H6])
         ([b1 K1] & [b2 K2] & [b3 K3] & [b4 K4] & [b5 K5] & [b6 K6]).
  repeat split;
    [exists (a1 ++ b1)%list | exists (a2 ++ b2)%list | exists (a3 ++ b3)%list
     | exists (a4 ++ b4)%list | exists (a5 ++ b5)%list | exists (a6 ++ b6)%list];
    rewrite app_assoc; congruence.
Qed.

Lemma graph_extends_add_claims (g : Graph) (rows : list ClaimRow) :
  graph_extends g (add_claims g rows).
Proof.
  repeat split; try (exists []; now rewrite app_nil_r). now exists rows.
Qed.

Lemma graph_extends_add_supports (g : Graph) (edges : list SupportsEdge) :
  graph_extends g (add_supports g edges).
Proof.
  repeat split; try (exists []; now rewrite app_nil_r). now exists edges.
Qed.

Lemma graph_extends_add_credentials (g : Graph) (rows : list CredentialRow)
      (edges : list BelongsToEdge) :
  graph_extends g (add_credentials g rows edges).
Proof.
  repeat split; try (exists []; now rewrite app_nil_r);
    [now exists rows | now exists edges].
Qed.

Lemma claim_stored_extends (g g' : Graph) (credential_id : string)
      (claim : ClaimNode.t) :
  graph_extends g g' -> claim_stored g credential_id claim ->
  claim_stored g' credential_id claim.
Proof.
  intros (_ & _ & [cl Hcl] & _ & [su Hsu] & _) (Hrow & e & He & Hends).
  split.
  - rewrite Hcl. apply in_or_app. now left.
  - exists e. split; [|exact Hends]. rewrite Hsu. apply in_or_app. now left.
Qed.

Lemma create_claim_node_effect (claim : ClaimNode.t) (w : World) :
  create_claim_node claim w
  = (Ok (ClaimNode.node_id claim),
     with_graph w (add_claims (graph w) [claim_row_of claim])).
Proof. reflexivity. Qed.

Lemma create_supports_edge_effect (credential_id claim_id : string) (w : World) :
  exists created w',
    create_supports_edge credential_id claim_id w
    = (match created with
       | [] => Raised TypeError
       | e :: _ => Ok (sup_edge_id e)
       end, w')
    /\ graph w' = add_supports (graph w) created
    /\ List.length created
       = List.length (list_prod (match_credentials (graph w) credential_id)
                                (match_claims (graph w) claim_id))
    /\ Forall (fun e => sup_source e = credential_id /\ sup_target e = claim_id)
              created.
Proof.
  unfold create_supports_edge.
  rewrite (bind_ok _ _ w w (graph w)) by reflexivity.
  erewrite bind_ok by reflexivity.
  match goal with
  | |- context [draw_edges ?mk ?rows] =>
      destruct (draw_edges_ok mk rows
                  (mk_world (graph w) (uuid_src w) (uuid_pos w) (clock w)
                            (S (clock_pos w))))
        as (created & w1 & Hrun & Hgraph & Hlen & Hall)
  end.
  erewrite bind_ok by exact Hrun.
  erewrite bind_ok by reflexivity.
  exists created, (with_graph w1 (add_supports (graph w) created)).
  repeat split.
  - now destruct created.
  - exact Hlen.
  - eapply Forall_impl; [|exact Hall].
    intros e [edge_id He]. subst e. split; reflexivity.
Qed.

Lemma decompose_claims_stored (credential_id : string)
      (claims0 : list (string * pyval)) :
  forall (claim_nodes0 : list ClaimNode.t) (edges_created0 : nat) (w : World),
    match_credentials (graph w) credential_id <> [] ->
    exists created w',
      decompose_claims credential_id claims0 claim_nodes0 edges_created0 w
      = (Ok ((claim_nodes0 ++ created)%list,
             edges_created0 + List.length created), w')
      /\ graph_extends (graph w) (graph w')
      /\ users (graph w') = users (graph w)
      /\ credentials (graph w') = credentials (graph w)
      /\ belongs_to (graph w') = belongs_to (graph w)
      /\ contradicts (graph w') = contradicts (graph w)
      /\ Forall (claim_stored (graph w') credential_id) created
      /\ claims (graph w') = (claims (graph w) ++ map claim_row_of created)%list.
Proof.
  induction claims0 as [|[attribute0 value0] rest IH];
    intros claim_nodes0 edges_created0 w Hcred.
  - exists [], w. rewrite app_nil_r, Nat.add_0_r.
    split; [reflexivity|]. split; [apply graph_extends_refl|].
    repeat split; [constructor | cbn; now rewrite app_nil_r].
  - cbn [decompose_claims].
    destruct (attribute0 =? "id"); [now apply IH|].
    destruct (claim_node_new_run None attribute0 value0 "1.0" w)
      as (c & w1 & Hnew & Hg1 & _).
    erewrite bind_ok by exact Hnew.
    erewrite bind_ok by apply create_claim_node_effect.
    set (w2 := with_graph w1 (add_claims (graph w1) [claim_row_of c])).
    destruct (create_supports_edge_effect credential_id (ClaimNode.node_id c) w2)
      as (edges & w3 & Hedge & Hg3 & Hlen & Hends).
    assert (Hcred2 : match_credentials (graph w2) credential_id <> []).
    { unfold match_credentials in *. subst w2. cbn. now rewrite Hg1. }
    assert (Hclaim2 : match_claims (graph w2) (ClaimNode.node_id c) <> []).
    { apply (match_claims_in (graph w2) (claim_row_of c)).
      subst w2. cbn. apply in_or_app. right. now left. }
    destruct edges as [|e edges].
    { exfalso. symmetry in Hlen. apply length_zero_iff_nil in Hlen.
      revert Hlen. now apply list_prod_nonempty. }
    erewrite bind_ok by exact Hedge.
    destruct (IH (claim_nodes0 ++ [c])%list (edges_created0 + 1) w3)
      as (created & w' & Hrun & Hext & Hus & Hcrs & Hbts & Hcons & Hstored & Hrows).
    { unfold match_credentials in *. rewrite Hg3. exact Hcred2. }
    assert (Hext3 : graph_extends (graph w) (graph w3)).
    { rewrite Hg3, <- Hg1.
      eapply graph_extends_trans; [apply (graph_extends_add_claims _ [claim_row_of c])|].
      apply graph_extends_add_supports. }
    exists (c :: created), w'.
    split; [|split; [|split; [|split; [|split; [|split; [|split]]]]]].
    8: { rewrite Hrows, Hg3. subst w2. cbn. rewrite Hg1.
         now rewrite <- app_assoc. }
    + rewrite Hrun. rewrite <- app_assoc. cbn [List.length app].
      now rewrite <- Nat.add_assoc.
    + eapply graph_extends_trans; [exact Hext3 | exact Hext].
    + rewrite Hus, Hg3. subst w2. cbn. now rewrite Hg1.
    + rewrite Hcrs, Hg3. subst w2. cbn. now rewrite Hg1.
    + rewrite Hbts, Hg3. subst w2. cbn. now rewrite Hg1.
    + rewrite Hcons, Hg3. subst w2. cbn. now rewrite Hg1.
    + constructor; [|exact Hstored].
      apply (claim_stored_extends (graph w3)); [exact Hext|].
      rewrite Hg3. split.
      * subst w2. cbn. apply in_or_app. right. now left.
      * exists e. inversion Hends as [|? ? [Hs Ht] _]; subst.
        split; [|now split].
        cbn. apply in_or_app. right. now left.
Qed.

Lemma map_const {A B} (x : B) (l : list A) :
  map (fun _ => x) l = repeat x (List.length l).
Proof. induction l as [|a l IH]; [reflexivity | cbn; now rewrite IH]. Qed.

Lemma create_user_node_effect (user_id : string) (w : World) :
  exists w1 more,
    create_user_node user_id w = (Ok user_id, w1)
    /\ match_users (graph w1) user_id <> []
    /\ graph w1 = set_users (graph w) (users (graph w) ++ more)%list.
Proof.
  destruct (match_users (graph w) user_id) as [|u found] eqn:Hmatch.
  - eexists. exists [mk_user user_id (clock w (clock_pos w))].
    split; [|split].
    + unfold create_user_node, bind, get_graph. rewrite Hmatch. reflexivity.
    + unfold match_users. cbn. apply filter_app_hit. cbn. apply String.eqb_refl.
    + reflexivity.
  - exists w, []. split; [|split].
    + unfold create_user_node, bind, get_graph. rewrite Hmatch.
      unfold ret, single_field.
      assert (Hid : user_node_id u = user_id).
      { apply (match_users_hit (graph w)). rewrite Hmatch. now left. }
      now rewrite Hid.
    + rewrite Hmatch. discriminate.
    + rewrite app_nil_r. now destruct (graph w).
Qed.

Lemma create_credential_node_effect (credential : CredentialNode.t)
      (user_id : string) (w : World) :
  match_users (graph w) user_id <> [] ->
  exists n w',
    create_credential_node credential user_id w
    = (Ok (CredentialNode.node_id credential), w')
    /\ graph w'
       = add_credentials
           (graph w)
           (repeat (credential_row_of credential) (S n))
           (repeat (mk_belongs_to (CredentialNode.node_id credential) user_id)
                   (S n)).
Proof.
  intros Huser.
  unfold create_credential_node, bind, get_graph, put_graph.
  fold (credential_row_of credential).
  rewrite !map_const.
  destruct (match_users (graph w) user_id) as [|u found]; [congruence|].
  exists (List.length found). eexists. split; reflexivity.
Qed.

Section DecomposerEffects.

Variable fromisoformat : string -> option datetime.

(** All that a decomposition leaves in the store. *)
Lemma decompose_effect (vc : VerifiableCredential.t)
      (user_id event_id : string) (w : World) :
  exists result w',
    decompose fromisoformat vc user_id event_id w = (Ok result, w')
    /\ graph_extends (graph w) (graph w')
    /\ contradicts (graph w') = contradicts (graph w)
    /\ match_users (graph w') user_id <> []
    /\ In (credential_row_of (credential_node result)) (credentials (graph w'))
    /\ In (mk_belongs_to (CredentialNode.node_id (credential_node result)) user_id)
          (belongs_to (graph w'))
    /\ Forall (claim_stored (graph w')
                            (CredentialNode.node_id (credential_node result)))
              (claim_nodes result)
    /\ claims (graph w')
       = (claims (graph w) ++ map claim_row_of (claim_nodes result))%list
    /\ (exists n,
           credentials (graph w')
           = (credentials (graph w)
                ++ repeat (credential_row_of (credential_node result)) (S n))%list).
Proof.
  unfold decompose.
  destruct (create_user_node_effect user_id w) as (w1 & more & Huser & Hmatch1 & Hg1).
  erewrite bind_ok by exact Huser. cbv zeta.
  destruct (credential_node_new_run
              (VerifiableCredential.get_issuer_id vc)
              (VerifiableCredential.get_credential_type vc)
              (parse_issuance_date fromisoformat
                                   (VerifiableCredential.issuance_date vc)) w1)
    as (c & w2 & Hnew & Hg2 & _).
  erewrite bind_ok by exact Hnew.
  set (c' := CredentialNode.set_property
               (CredentialNode.set_property c "event_id" (VStr event_id))
               "issuer_name" (VerifiableCredential.get_issuer_name vc)).
  destruct (create_credential_node_effect c' user_id w2) as (n & w3 & Hcred & Hg3).
  { now rewrite Hg2. }
  erewrite bind_ok by exact Hcred.
  destruct (decompose_claims_stored
              (CredentialNode.node_id c')
              (_extract_claims (VerifiableCredential.credential_subject vc)
                               EmptyString) [] 0 w3)
    as (created & w4 & Hrun & Hext & Hus & Hcrs & Hbts & Hcons & Hstored & Hrows).
  { apply (f_equal credentials) in Hg3. cbn in Hg3.
    unfold match_credentials. rewrite Hg3, filter_app. cbn [filter].
    change (cred_node_id (credential_row_of c')) with (CredentialNode.node_id c').
    rewrite String.eqb_refl. intros Hnil. apply app_eq_nil in Hnil.
    destruct Hnil as [_ Hnil]. discriminate. }
  erewrite bind_ok by exact Hrun.
  do 2 eexists. split; [reflexivity|].
  cbn [credential_node claim_nodes fst app].
  split; [|split; [|split; [|split; [|split; [|split; [|split]]]]]].
  7: { now rewrite Hrows, Hg3, Hg2, Hg1. }
  7: { exists n. now rewrite Hcrs, Hg3, Hg2, Hg1. }
  - eapply graph_extends_trans; [|exact Hext].
    rewrite Hg3, Hg2, Hg1.
    eapply graph_extends_trans; [|apply graph_extends_add_credentials].
    repeat split; try (exists []; now rewrite app_nil_r). now exists more.
  - now rewrite Hcons, Hg3, Hg2, Hg1.
  - unfold match_users in *. rewrite Hus, Hg3. cbn [add_credentials users].
    now rewrite Hg2.
  - rewrite Hcrs, Hg3. cbn. apply in_or_app. right. now left.
  - rewrite Hbts, Hg3. cbn. apply in_or_app. right. now left.
  - exact Hstored.
Qed.

(** X8.  What [decompose] returns is in the store when it returns: the
    user node, the row of the credential node with a BELONGS_TO edge to
    the user, and for every claim node of the result its row, holding
    the [str] of the value, with a SUPPORTS edge from the credential. *)
Theorem decompose_persists (vc : VerifiableCredential.t)
        (user_id event_id : string) (w : World) :
  exists result w',
    decompose fromisoformat vc user_id event_id w = (Ok result, w')
    /\ match_users (graph w') user_id <> []
    /\ In (credential_row_of (credential_node result)) (credentials (graph w'))
    /\ In (mk_belongs_to (CredentialNode.node_id (credential_node result)) user_id)
          (belongs_to (graph w'))
    /\ Forall (claim_stored (graph w')
                            (CredentialNode.node_id (credential_node result)))
              (claim_nodes result).
Proof.
  destruct (decompose_effect vc user_id event_id w)
    as (result & w' & Hrun & _ & _ & Huser & Hcred & Hbelongs & Hstored & _).
  now exists result, w'.
Qed.


(** X10.  The claims a decomposition has just created are among the
    existing claims of the user: for each claim node of the result,
    [find_existing_claims] for its attribute has a record with its
    identifier and stored value. *)
Theorem decompose_claims_are_existing (vc : VerifiableCredential.t)
        (user_id event_id : string) (w : World) :
  exists result w',
    decompose fromisoformat vc user_id event_id w = (Ok result, w')
    /\ Forall (fun claim =>
                 In (mk_existing
                       (ClaimNode.node_id claim) (ClaimNode.attribute claim)
                       (Some (opt_str (ClaimNode.stored_value
                                         (ClaimNode.value claim)))))
                    (existing_claims_of (graph w') user_id
                                        (ClaimNode.attribute claim)))
              (claim_nodes result).
Proof.
  destruct (decompose_effect vc user_id event_id w)
    as (result & w' & Hrun & _ & _ & Huser & Hcred & Hbelongs & Hstored & _).
  exists result, w'. split; [exact Hrun|].
  eapply Forall_impl; [|exact Hstored].
  intros claim (Hrow & e & He & Hsource & Htarget).
  destruct (match_users (graph w') user_id) as [|u found] eqn:Hmatch;
    [congruence|].
  assert (Hu : In u (users (graph w')) /\ user_node_id u = user_id).
  { apply match_users_hit. rewrite Hmatch. now left. }
  destruct Hu as [Hu Hid].
  apply in_existing_claims_of.
  exists u, (claim_row_of claim), e,
         (credential_row_of (credential_node result)),
         (mk_belongs_to (CredentialNode.node_id (credential_node result)) user_id).
  repeat split; try assumption. now rewrite Hsource.
Qed.

End DecomposerEffects.

(* ================================================================= *)
(** * What detection reports *)

Lemma add_contradicts_app (g : Graph) (a b : list ContradictsEdge) :
  add_contradicts (add_contradicts g a) b = add_contradicts g (a ++ b)%list.
Proof. unfold add_contradicts. cbn. now rewrite app_assoc. Qed.

Lemma existing_claims_of_add_contradicts (g : Graph) (added : list ContradictsEdge)
      (user_id attribute0 : string) :
  existing_claims_of (add_contradicts g added) user_id attribute0
  = existing_claims_of g user_id attribute0.
Proof. reflexivity. Qed.

Lemma has_edge_add (g : Graph) (added : list ContradictsEdge) (c : Conflict) :
  has_edge g c -> has_edge (add_contradicts g added) c.
Proof.
  intros (e & He & Hrest). exists e. split; [|exact Hrest].
  cbn. apply in_or_app. now left.
Qed.

Lemma existing_row_eta (row : ExistingClaim) (v : pyval) :
  row_value row = Some v ->
  mk_existing (row_node_id row) (row_attribute row) (Some v) = row.
Proof. destruct row. cbn. now intros ->. Qed.

(** The loop over the existing records, when the new claim and the
    claims of the records are stored and every record holds a value. *)
Lemma detect_existing_reports (new_claim : ClaimNode.t)
      (existing : list ExistingClaim) :
  forall (conflicts : list Conflict) (w : World),
    match_claims (graph w) (ClaimNode.node_id new_claim) <> [] ->
    Forall (fun row => row_value row <> None
                       /\ match_claims (graph w) (row_node_id row) <> [])
           existing ->
    exists found added w',
      detect_existing new_claim existing conflicts w
      = (Ok (conflicts ++ found)%list, w')
      /\ graph w' = add_contradicts (graph w) added
      /\ map conflict_pair found
         = map (pair new_claim) (filter (in_conflict new_claim) existing)
      /\ List.length found <= List.length added
      /\ Forall (has_edge (graph w')) found
      /\ Forall (fun c => attribute c = ClaimNode.attribute (claim_a c)) found.
Proof.
  induction existing as [|row rest IH]; intros conflicts w Hnew Hrows.
  - exists [], [], w. rewrite app_nil_r.
    split; [reflexivity|]. split; [symmetry; apply add_nothing|].
    repeat split; constructor.
  - inversion Hrows as [|? ? [Hvalue Hold] Hrest]; subst.
    cbn [filter]. unfold in_conflict at 1.
    destruct (row_node_id row =? ClaimNode.node_id new_claim) eqn:Hself.
    { cbn [negb andb detect_existing]. rewrite Hself. now apply IH. }
    apply String.eqb_neq in Hself.
    destruct (existing_value_of row =? new_value_of new_claim) eqn:Hsame.
    { cbn [negb andb]. apply String.eqb_eq in Hsame.
      rewrite detect_existing_same_value by assumption. now apply IH. }
    apply String.eqb_neq in Hsame. cbn [negb andb].
    destruct (row_value row) as [v|] eqn:Hv; [|congruence].
    destruct (detect_existing_differing new_claim row rest conflicts w v
                Hself Hsame Hv Hnew Hold)
      as (c & w1 & edge & edges & Hrun & Hg1 & Hends & Hcid & Hattr & Ha & Hbid
          & Hbattr & Hbval).
    destruct (IH (conflicts ++ [c])%list w1)
      as (found & added & w' & Hrun' & Hg' & Hpairs & Hlen & Hedges & Hattrs).
    { now rewrite Hg1. }
    { eapply Forall_impl; [|exact Hrest]. intros r [Hr1 Hr2].
      split; [exact Hr1 | now rewrite Hg1]. }
    exists (c :: found), ((edge :: edges) ++ added)%list, w'.
    split; [|split; [|split; [|split; [|split]]]].
    + now rewrite Hrun, Hrun', <- app_assoc.
    + now rewrite Hg', Hg1, add_contradicts_app.
    + cbn [map]. rewrite Hpairs. f_equal.
      unfold conflict_pair. rewrite Ha, Hbid, Hbattr, Hbval.
      now rewrite (existing_row_eta row v Hv).
    + cbn [List.length app]. rewrite length_app. lia.
    + constructor; [|exact Hedges].
      rewrite Hg'. apply has_edge_add. exists edge.
      apply Forall_inv in Hends. destruct Hends as (Hs & Ht & Hc).
      rewrite Hg1. split; [cbn; apply in_or_app; right; now left|].
      rewrite Ha, Hbid. repeat split; congruence.
    + constructor; [|exact Hattrs]. now rewrite Ha.
Qed.

Lemma existing_rows_stored (g : Graph) (user_id attribute0 : string) :
  Forall (fun row => row_value row <> None
                     /\ match_claims g (row_node_id row) <> [])
         (existing_claims_of g user_id attribute0).
Proof.
  apply Forall_forall. intros row Hin.
  apply in_existing_claims_of in Hin.
  destruct Hin as (u & c & s & cr & b & _ & _ & Hc & _ & _ & _ & _ & _ & _ & _ & _
                   & Hrow).
  subst row. split; [discriminate | now apply match_claims_in].
Qed.

Lemma detect_new_reports (user_id : string) (new_claims : list ClaimNode.t) :
  forall (conflicts : list Conflict) (w : World),
    Forall (fun claim => match_claims (graph w) (ClaimNode.node_id claim) <> [])
           new_claims ->
    exists found added w',
      detect_new user_id new_claims conflicts w
      = (Ok (conflicts ++ found)%list, w')
      /\ graph w' = add_contradicts (graph w) added
      /\ map conflict_pair found = conflicting_pairs (graph w) user_id new_claims
      /\ List.length found <= List.length added
      /\ Forall (has_edge (graph w')) found
      /\ Forall (fun c => attribute c = ClaimNode.attribute (claim_a c)) found.
Proof.
  induction new_claims as [|new_claim rest IH]; intros conflicts w Hstored.
  - exists [], [], w. rewrite app_nil_r.
    split; [reflexivity|]. split; [symmetry; apply add_nothing|].
    repeat split; constructor.
  - inversion Hstored as [|? ? Hnew Hrest]; subst.
    cbn [detect_new]. erewrite bind_ok by reflexivity.
    destruct (detect_existing_reports
                new_claim
                (existing_claims_of (graph w) user_id
                                    (ClaimNode.attribute new_claim))
                conflicts w Hnew (existing_rows_stored _ _ _))
      as (found1 & added1 & w1 & Hrun1 & Hg1 & Hpairs1 & Hlen1 & Hedges1 & Hattrs1).
    erewrite bind_ok by exact Hrun1.
    destruct (IH (conflicts ++ found1)%list w1)
      as (found2 & added2 & w' & Hrun2 & Hg2 & Hpairs2 & Hlen2 & Hedges2 & Hattrs2).
    { eapply Forall_impl; [|exact Hrest]. intros c Hc. now rewrite Hg1. }
    exists (found1 ++ found2)%list, (added1 ++ added2)%list, w'.
    split; [|split; [|split; [|split; [|split]]]].
    + now rewrite Hrun2, <- app_assoc.
    + now rewrite Hg2, Hg1, add_contradicts_app.
    + cbn [conflicting_pairs flat_map]. rewrite map_app, Hpairs1, Hpairs2.
      now rewrite Hg1.
    + rewrite !length_app. lia.
    + apply Forall_app. split; [|exact Hedges2].
      eapply Forall_impl; [|exact Hedges1]. intros c Hc.
      rewrite Hg2. now apply has_edge_add.
    + apply Forall_app. now split.
Qed.

(** X11.  On new claims that are stored, [detect_conflicts] returns,
    and its conflicts are, in order, the pairs of a new claim and an
    existing record of the store as it was before the call that have
    different identifiers and different compared strings.  It changes
    the store by CONTRADICTS edges only, at least one per conflict, and
    each conflict carries the attribute of its new claim and the
    identifier of an edge, of confidence 1.0, from the new claim to the
    existing one. *)
Theorem detect_conflicts_reports (user_id : string)
        (new_claims : list ClaimNode.t) (w : World) :
  Forall (fun claim => match_claims (graph w) (ClaimNode.node_id claim) <> [])
         new_claims ->
  exists conflicts added w',
    detect_conflicts user_id new_claims w = (Ok conflicts, w')
    /\ graph w' = add_contradicts (graph w) added
    /\ map conflict_pair conflicts = conflicting_pairs (graph w) user_id new_claims
    /\ List.length conflicts <= List.length added
    /\ Forall (has_edge (graph w')) conflicts
    /\ Forall (fun c => attribute c = ClaimNode.attribute (claim_a c)) conflicts.
Proof.
  intros Hstored. exact (detect_new_reports user_id new_claims [] w Hstored).
Qed.

Lemma all_stored_spec (g : Graph) (claim_nodes0 : list ClaimNode.t) :
  all_stored g claim_nodes0 = true ->
  Forall (fun claim => match_claims g (ClaimNode.node_id claim) <> [])
         claim_nodes0.
Proof.
  unfold all_stored. rewrite forallb_forall, Forall_forall.
  intros Hall claim Hin Hnil. specialize (Hall claim Hin).
  rewrite Hnil in Hall. discriminate.
Qed.

Lemma detect_conflicts_reports_witness :
  exists conflicts added w',
    detect_conflicts "user-123" john_claims (snd jane_john_run) = (Ok conflicts, w')
    /\ graph w' = add_contradicts (graph (snd jane_john_run)) added
    /\ map conflict_pair conflicts
       = conflicting_pairs (graph (snd jane_john_run)) "user-123" john_claims
    /\ List.length conflicts <= List.length added
    /\ Forall (has_edge (graph w')) conflicts
    /\ Forall (fun c => attribute c = ClaimNode.attribute (claim_a c)) conflicts.
Proof.
  apply detect_conflicts_reports.
  apply all_stored_spec. vm_compute. reflexivity.
Defined.

Lemma detect_new_nothing_existing (user_id : string)
      (new_claims : list ClaimNode.t) :
  forall (conflicts : list Conflict) (w : World),
    Forall (fun claim =>
              existing_claims_of (graph w) user_id (ClaimNode.attribute claim) = [])
           new_claims ->
    detect_new user_id new_claims conflicts w = (Ok conflicts, w).
Proof.
  induction new_claims as [|new_claim rest IH]; intros conflicts w Hnone;
    [reflexivity|].
  inversion Hnone as [|? ? Hfirst Hrest]; subst.
  cbn [detect_new]. erewrite bind_ok by reflexivity.
  rewrite Hfirst. erewrite bind_ok by reflexivity.
  now apply IH.
Qed.

(** X12.  When the store has no existing claim of the user for the
    attribute of any new claim, as for a user it does not know,
    [detect_conflicts] returns no conflict and leaves the world as it
    was, whether the new claims are stored or not. *)
Theorem detect_conflicts_nothing_existing (user_id : string)
        (new_claims : list ClaimNode.t) (w : World) :
  Forall (fun claim =>
            existing_claims_of (graph w) user_id (ClaimNode.attribute claim) = [])
         new_claims ->
  detect_conflicts user_id new_claims w = (Ok [], w).
Proof. apply detect_new_nothing_existing. Qed.

Lemma detect_conflicts_nothing_existing_witness :
  detect_conflicts "user-123" [unstored_john] world0 = (Ok [], world0).
Proof.
  apply detect_conflicts_nothing_existing.
  constructor; [reflexivity | constructor].
Defined.

(** X13.  Detection does not remember what it reported: a second call
    on the same stored claims reports the same pairs again and writes
    their edges again. *)
Theorem detect_conflicts_twice (user_id : string)
        (new_claims : list ClaimNode.t) (w : World) :
  Forall (fun claim => match_claims (graph w) (ClaimNode.node_id claim) <> [])
         new_claims ->
  exists conflicts1 added1 w1 conflicts2 added2 w2,
    detect_conflicts user_id new_claims w = (Ok conflicts1, w1)
    /\ detect_conflicts user_id new_claims w1 = (Ok conflicts2, w2)
    /\ map conflict_pair conflicts2 = map conflict_pair conflicts1
    /\ contradicts (graph w2) = (contradicts (graph w) ++ added1 ++ added2)%list
    /\ List.length conflicts1 <= List.length added1
    /\ List.length conflicts1 <= List.length added2.
Proof.
  intros Hstored.
  destruct (detect_new_reports user_id new_claims [] w Hstored)
    as (cs1 & added1 & w1 & Hrun1 & Hg1 & Hpairs1 & Hlen1 & _).
  destruct (detect_new_reports user_id new_claims [] w1)
    as (cs2 & added2 & w2 & Hrun2 & Hg2 & Hpairs2 & Hlen2 & _).
  { eapply Forall_impl; [|exact Hstored]. intros c Hc. now rewrite Hg1. }
  assert (Hsame : map conflict_pair cs2 = map conflict_pair cs1).
  { rewrite Hpairs2, Hpairs1, Hg1. reflexivity. }
  exists cs1, added1, w1, cs2, added2, w2.
  split; [exact Hrun1|]. split; [exact Hrun2|]. split; [exact Hsame|].
  split; [|split; [exact Hlen1|]].
  - rewrite Hg2, Hg1. cbn. now rewrite app_assoc.
  - apply (f_equal (@List.length _)) in Hsame. rewrite !length_map in Hsame.
    lia.
Qed.

Lemma detect_conflicts_twice_witness :
  exists conflicts1 added1 w1 conflicts2 added2 w2,
    detect_conflicts "user-123" john_claims (snd jane_john_run) = (Ok conflicts1, w1)
    /\ detect_conflicts "user-123" john_claims w1 = (Ok conflicts2, w2)
    /\ map conflict_pair conflicts2 = map conflict_pair conflicts1
    /\ contradicts (graph w2)
       = (contradicts (graph (snd jane_john_run)) ++ added1 ++ added2)%list
    /\ List.length conflicts1 <= List.length added1
    /\ List.length conflicts1 <= List.length added2.
Proof.
  apply detect_conflicts_twice.
  apply all_stored_spec. vm_compute. reflexivity.
Defined.

Lemma detect_existing_unstored (new_claim : ClaimNode.t)
      (existing : list ExistingClaim) :
  forall (conflicts : list Conflict) (w : World),
    match_claims (graph w) (ClaimNode.node_id new_claim) = [] ->
    filter (in_conflict new_claim) existing <> [] ->
    exists w',
      detect_existing new_claim existing conflicts w = (Raised TypeError, w')
      /\ graph w' = graph w.
Proof.
  induction existing as [|row rest IH]; intros conflicts w Hnew Hsome;
    [now cbn in Hsome|].
  cbn [filter] in Hsome. unfold in_conflict at 1 in Hsome.
  cbn [detect_existing].
  destruct (row_node_id row =? ClaimNode.node_id new_claim);
    cbn [negb andb] in Hsome; [now apply IH|].
  destruct (existing_value_of row =? new_value_of new_claim);
    cbn [negb andb] in Hsome |- *; [now apply IH|].
  destruct (create_contradicts_edge_missing_node
              (ClaimNode.node_id new_claim) (row_node_id row) "1.0" w
              (or_introl Hnew))
    as (w' & Hrun & Hg).
  exists w'. split; [|exact Hg].
  now erewrite bind_raised by exact Hrun.
Qed.

(** X14.  [detect_conflicts] is for claims that are stored: when the
    first new claim is not in the store and an existing record is in
    conflict with it, the call raises [TypeError] at that record (the
    edge finds no node to start from), reports nothing and leaves the
    graph as it was. *)
Theorem detect_conflicts_unstored_claim (user_id : string)
        (new_claim : ClaimNode.t) (rest : list ClaimNode.t) (w : World) :
  match_claims (graph w) (ClaimNode.node_id new_claim) = [] ->
  conflicting_pairs (graph w) user_id [new_claim] <> [] ->
  exists w',
    detect_conflicts user_id (new_claim :: rest) w = (Raised TypeError, w')
    /\ graph w' = graph w.
Proof.
  intros Hnew Hsome.
  unfold detect_conflicts. cbn [detect_new].
  erewrite bind_ok by reflexivity.
  destruct (detect_existing_unstored
              new_claim
              (existing_claims_of (graph w) user_id (ClaimNode.attribute new_claim))
              [] w Hnew)
    as (w' & Hrun & Hg).
  { intros Hnil. apply Hsome. cbn [conflicting_pairs flat_map].
    now rewrite Hnil. }
  exists w'. split; [|exact Hg].
  now erewrite bind_raised by exact Hrun.
Qed.

Lemma nonempty_by_length {A} (l : list A) :
  Nat.ltb 0 (List.length l) = true -> l <> [].
Proof. destruct l; [discriminate | intros _; discriminate]. Qed.

Lemma detect_conflicts_unstored_claim_witness :
  exists w',
    detect_conflicts "user-123" [unstored_john]
                     (snd (decompose fromisoformat_basic
                                     (vc_of_subject [("name", VStr "Jane")])
                                     "user-123" "event-1" world0))
    = (Raised TypeError, w')
    /\ graph w'
       = graph (snd (decompose fromisoformat_basic
                               (vc_of_subject [("name", VStr "Jane")])
                               "user-123" "event-1" world0)).
Proof.
  apply detect_conflicts_unstored_claim.
  - reflexivity.
  - apply nonempty_by_length. vm_compute. reflexivity.
Defined.

(* ================================================================= *)
(** * The credential pipeline *)

Lemma conflicting_pairs_new (g : Graph) (user_id : string)
      (new_claims : list ClaimNode.t) (p : ClaimNode.t * ExistingClaim) :
  In p (conflicting_pairs g user_id new_claims) ->
  In (fst p) new_claims
  /\ In (snd p) (existing_claims_of g user_id (ClaimNode.attribute (fst p)))
  /\ in_conflict (fst p) (snd p) = true.
Proof.
  unfold conflicting_pairs. rewrite in_flat_map.
  intros (new_claim & Hnew & Hin).
  apply in_map_iff in Hin. destruct Hin as (row & Hp & Hrow).
  apply filter_In in Hrow. destruct Hrow as [Hrow Htest].
  subst p. now repeat split.
Qed.

Lemma process_credential_is_process_vc (vc : VerifiableCredential.t)
      (user_id event_id : string) :
  process_credential vc user_id event_id
  = process_vc_with fromisoformat_basic vc user_id event_id.
Proof. reflexivity. Qed.

Section PipelineFacts.

Variable fromisoformat : string -> option datetime.

(** X15.  Decomposition followed by detection on its claims always
    returns: every edge finds its nodes, as the claims were stored
    first.  The result counts the conflicts; each conflict is between a
    claim node of the result and another claim of the user with the same
    attribute, and has its CONTRADICTS edge in the store. *)
Theorem process_vc_returns (vc : VerifiableCredential.t)
        (user_id event_id : string) (w : World) :
  exists result conflicts w',
    process_vc_with fromisoformat vc user_id event_id w
    = (Ok (result, conflicts), w')
    /\ conflicts_detected result = List.length conflicts
    /\ edges_created result = List.length (claim_nodes result)
    /\ Forall (fun c =>
                 In (claim_a c) (claim_nodes result)
                 /\ ClaimNode.node_id (claim_b c) <> ClaimNode.node_id (claim_a c)
                 /\ ClaimNode.attribute (claim_b c) = ClaimNode.attribute (claim_a c)
                 /\ supported_for (graph w') (ClaimNode.node_id (claim_b c)) user_id
                 /\ has_edge (graph w') c)
              conflicts.
Proof.
  unfold process_vc_with.
  destruct (decompose_effect fromisoformat vc user_id event_id w)
    as (result & w1 & Hrun & _ & _ & _ & _ & _ & Hstored & _).
  destruct (decompose_returns fromisoformat vc user_id event_id w)
    as (result' & w1' & Hrun' & Hcount & _).
  rewrite Hrun in Hrun'. inversion Hrun'; subst result' w1'. clear Hrun'.
  erewrite bind_ok by exact Hrun.
  destruct (detect_new_reports user_id (claim_nodes result) [] w1)
    as (conflicts & added & w' & Hdetect & Hg & Hpairs & _ & Hedges & _).
  { eapply Forall_impl; [|exact Hstored].
    intros claim [Hrow _]. exact (match_claims_in _ _ Hrow). }
  erewrite bind_ok by exact Hdetect.
  exists (mk_result (credential_node result) (claim_nodes result)
                    (fragment_node result) (edges_created result)
                    (List.length conflicts)), conflicts, w'.
  split; [reflexivity|]. split; [reflexivity|]. split; [exact Hcount|].
  apply Forall_forall. intros c Hc.
  assert (Hpair : In (conflict_pair c)
                     (conflicting_pairs (graph w1) user_id (claim_nodes result))).
  { rewrite <- Hpairs. now apply in_map. }
  apply conflicting_pairs_new in Hpair.
  destruct Hpair as (Hnew & Hrow & Htest).
  cbn [conflict_pair fst snd] in Hnew, Hrow, Htest.
  apply in_existing_claims_of in Hrow.
  destruct Hrow as (u & cl & s & cr & b & Hu & Hu' & Hcl & Hcl' & Hs & Hs' & Hcr
                    & Hcr' & Hb & Hb1 & Hb2 & Hrow).
  inversion Hrow as [[Hid Hattr Hval]].
  unfold in_conflict in Htest. apply andb_true_iff in Htest.
  destruct Htest as [Hdiff _]. cbn [row_node_id] in Hdiff.
  apply negb_true_iff, String.eqb_neq in Hdiff.
  cbn [claim_nodes].
  split; [exact Hnew|]. split; [exact Hdiff|]. split; [congruence|].
  split; [|rewrite Forall_forall in Hedges; now apply Hedges].
  rewrite Hg. exists s, cr, b. cbn [add_contradicts supports credentials belongs_to].
  repeat split; try assumption. congruence.
Qed.

End PipelineFacts.

(* ================================================================= *)
(** * The conflict listing *)

Lemma is_supported_for_spec (g : Graph) (claim_id user_id : string) :
  is_supported_for g claim_id user_id = true <-> supported_for g claim_id user_id.
Proof.
  unfold is_supported_for, supported_for. rewrite existsb_exists. split.
  - intros (s & Hs & Htest).
    apply andb_true_iff in Htest. destruct Htest as [Ht Hcr].
    apply existsb_exists in Hcr. destruct Hcr as (cr & Hcr & Htest).
    apply andb_true_iff in Htest. destruct Htest as [Hid Hb].
    apply existsb_exists in Hb. destruct Hb as (b & Hb & Htest).
    apply andb_true_iff in Htest. destruct Htest as [Hb1 Hb2].
    apply String.eqb_eq in Ht, Hid, Hb1, Hb2.
    exists s, cr, b. repeat split; assumption.
  - intros (s & cr & b & Hs & Ht & Hcr & Hid & Hb & Hb1 & Hb2).
    exists s. split; [exact Hs|].
    apply andb_true_iff. split; [now apply String.eqb_eq|].
    apply existsb_exists. exists cr. split; [exact Hcr|].
    apply andb_true_iff. split; [now apply String.eqb_eq|].
    apply existsb_exists. exists b. split; [exact Hb|].
    apply andb_true_iff. split; now apply String.eqb_eq.
Qed.

Lemma in_conflict_matches (g : Graph) (user_id : string) (record : ConflictRecord) :
  In record (conflict_matches g user_id) <->
  exists u r ends c1 c2,
    In u (match_users g user_id)
    /\ In r (contradicts g)
    /\ In ends (both_ways r)
    /\ In c1 (match_claims g (fst ends))
    /\ In c2 (match_claims g (snd ends))
    /\ is_supported_for g (claim_node_id c1) (user_node_id u) = true
    /\ record = mk_conflict_record
                  (con_edge_id r) (claim_attribute c1)
                  (claim_node_id c1) (claim_value c1)
                  (claim_node_id c2) (claim_value c2).
Proof.
  unfold conflict_matches. split.
  - intros Hin.
    apply in_flat_map in Hin. destruct Hin as (u & Hu & Hin).
    apply in_flat_map in Hin. destruct Hin as (r & Hr & Hin).
    apply in_flat_map in Hin. destruct Hin as (ends & Hends & Hin).
    apply in_flat_map in Hin. destruct Hin as (c1 & Hc1 & Hin).
    destruct (is_supported_for g (claim_node_id c1) (user_node_id u)) eqn:Hsup;
      [|contradiction].
    apply in_map_iff in Hin. destruct Hin as (c2 & Hrec & Hc2).
    exists u, r, ends, c1, c2. repeat split; try assumption. now symmetry.
  - intros (u & r & ends & c1 & c2 & Hu & Hr & Hends & Hc1 & Hc2 & Hsup & Hrec).
    apply in_flat_map. exists u. split; [exact Hu|].
    apply in_flat_map. exists r. split; [exact Hr|].
    apply in_flat_map. exists ends. split; [exact Hends|].
    apply in_flat_map. exists c1. split; [exact Hc1|].
    rewrite Hsup. apply in_map_iff. exists c2. split; [now symmetry | exact Hc2].
Qed.

Lemma match_claims_id (g : Graph) (claim_id : string) (c : ClaimRow) :
  In c (match_claims g claim_id) -> In c (claims g) /\ claim_node_id c = claim_id.
Proof.
  unfold match_claims. rewrite filter_In. intros [Hin Heq].
  split; [exact Hin | now apply String.eqb_eq].
Qed.

Lemma both_ways_swap (r : ContradictsEdge) (ends : string * string) :
  In ends (both_ways r) -> In (snd ends, fst ends) (both_ways r).
Proof.
  unfold both_ways. intros [<- | [<- | []]]; cbn; auto.
Qed.

(** Listed one way, and with the other claim the user's too, a
    conflict is listed the other way. *)
Lemma conflicts_of_mirror (g : Graph) (user_id : string) (record : ConflictRecord) :
  In record (conflicts_of g user_id) ->
  supported_for g (rec_claim_b_id record) user_id ->
  exists attribute0,
    In (mk_conflict_record
          (rec_conflict_id record) attribute0
          (rec_claim_b_id record) (rec_claim_b_value record)
          (rec_claim_a_id record) (rec_claim_a_value record))
       (conflicts_of g user_id).
Proof.
  unfold conflicts_of. rewrite nodup_In. intros Hin Hsup.
  apply in_conflict_matches in Hin.
  destruct Hin as (u & r & ends & c1 & c2 & Hu & Hr & Hends & Hc1 & Hc2 & _ & Hrec).
  subst record. cbn in Hsup |- *.
  exists (claim_attribute c2). rewrite nodup_In.
  apply in_conflict_matches.
  exists u, r, (snd ends, fst ends), c2, c1.
  split; [exact Hu|]. split; [exact Hr|].
  split; [now apply both_ways_swap|].
  split; [exact Hc2|]. split; [exact Hc1|]. split; [|reflexivity].
  apply is_supported_for_spec.
  destruct (match_users_hit g user_id u Hu) as [_ Hid]. now rewrite Hid.
Qed.

(** X16.  [get_conflicts] reads only, and lists a conflict from both
    of its claims: for every record, when the second claim too is
    supported by a credential of the user, the list has the record of
    the same edge with the two claims, and their values, exchanged. *)
Theorem get_conflicts_both_ways (user_id : string) (w : World) :
  exists records,
    get_conflicts user_id w = (Ok records, w)
    /\ NoDup records
    /\ Forall (fun record =>
                 supported_for (graph w) (rec_claim_a_id record) user_id
                 /\ (supported_for (graph w) (rec_claim_b_id record) user_id ->
                     exists attribute0,
                       In (mk_conflict_record
                             (rec_conflict_id record) attribute0
                             (rec_claim_b_id record) (rec_claim_b_value record)
                             (rec_claim_a_id record) (rec_claim_a_value record))
                          records))
              records.
Proof.
  exists (conflicts_of (graph w) user_id).
  split; [reflexivity|]. split; [apply NoDup_nodup|].
  apply Forall_forall. intros record Hin. split.
  - unfold conflicts_of in Hin. rewrite nodup_In in Hin.
    apply in_conflict_matches in Hin.
    destruct Hin as (u & r & ends & c1 & c2 & Hu & _ & _ & _ & _ & Hsup & Hrec).
    subst record. cbn [rec_claim_a_id].
    apply is_supported_for_spec in Hsup.
    destruct (match_users_hit _ _ u Hu) as [_ Hid]. now rewrite <- Hid.
  - now apply conflicts_of_mirror.
Qed.

Lemma conflicts_of_intro (g : Graph) (user_id : string) (e : ContradictsEdge)
      (c1 c2 : ClaimRow) (ends : string * string) :
  match_users g user_id <> [] ->
  In e (contradicts g) ->
  In ends (both_ways e) ->
  In c1 (claims g) -> claim_node_id c1 = fst ends ->
  In c2 (claims g) -> claim_node_id c2 = snd ends ->
  supported_for g (fst ends) user_id ->
  In (mk_conflict_record (con_edge_id e) (claim_attribute c1)
                         (fst ends) (claim_value c1)
                         (snd ends) (claim_value c2))
     (conflicts_of g user_id).
Proof.
  intros Huser He Hends Hc1 Hid1 Hc2 Hid2 Hsup.
  destruct (match_users g user_id) as [|u found] eqn:Hmatch; [congruence|].
  assert (Hu : In u (match_users g user_id)) by (rewrite Hmatch; now left).
  destruct (match_users_hit g user_id u Hu) as [_ Huid].
  unfold conflicts_of. rewrite nodup_In. apply in_conflict_matches.
  exists u, e, ends, c1, c2.
  split; [exact Hu|]. split; [exact He|]. split; [exact Hends|].
  split; [apply filter_In; split; [exact Hc1 | now apply String.eqb_eq]|].
  split; [apply filter_In; split; [exact Hc2 | now apply String.eqb_eq]|].
  split; [|now rewrite Hid1, Hid2].
  apply is_supported_for_spec. now rewrite Hid1, Huid.
Qed.

Lemma supported_for_add_contradicts (g : Graph) (added : list ContradictsEdge)
      (claim_id user_id : string) :
  supported_for g claim_id user_id ->
  supported_for (add_contradicts g added) claim_id user_id.
Proof. intros H. exact H. Qed.

Section ListingFacts.

Variable fromisoformat : string -> option datetime.

(** X17.  The conflicts found when a credential is processed are in
    the conflict list of the user afterwards, each of them twice: once as
    seen from the existing claim and once as seen from the new claim,
    under the identifier and the attribute of the conflict. *)
Theorem process_vc_conflicts_listed (vc : VerifiableCredential.t)
        (user_id event_id : string) (w : World) :
  exists result conflicts w' records,
    process_vc_with fromisoformat vc user_id event_id w
    = (Ok (result, conflicts), w')
    /\ get_user_conflicts user_id w' = (Ok records, w')
    /\ Forall (fun c =>
                 (exists record, In record records /\ lists_from_existing c record)
                 /\ (exists record, In record records /\ lists_from_new c record))
              conflicts.
Proof.
  unfold process_vc_with.
  destruct (decompose_effect fromisoformat vc user_id event_id w)
    as (result & w1 & Hrun & _ & _ & Huser & Hcred & Hbelongs & Hstored & _).
  erewrite bind_ok by exact Hrun.
  destruct (detect_new_reports user_id (claim_nodes result) [] w1)
    as (conflicts & added & w' & Hdetect & Hg & Hpairs & _ & Hedges & Hattrs).
  { eapply Forall_impl; [|exact Hstored].
    intros claim [Hrow _]. exact (match_claims_in _ _ Hrow). }
  erewrite bind_ok by exact Hdetect.
  do 3 eexists. exists (conflicts_of (graph w') user_id).
  split; [reflexivity|]. split; [reflexivity|].
  apply Forall_forall. intros c Hc.
  assert (Hpair : In (conflict_pair c)
                     (conflicting_pairs (graph w1) user_id (claim_nodes result))).
  { rewrite <- Hpairs. now apply in_map. }
  apply conflicting_pairs_new in Hpair.
  destruct Hpair as (Hnew & Hrow & _).
  cbn [conflict_pair fst snd] in Hnew, Hrow.
  apply in_existing_claims_of in Hrow.
  destruct Hrow as (u & cl & s & cr & b & Hu & Hu' & Hcl & Hcl' & Hs & Hs' & Hcr
                    & Hcr' & Hb & Hb1 & Hb2 & Hrow).
  inversion Hrow as [[Hid Hattr Hval]].
  rewrite Forall_forall in Hedges, Hattrs, Hstored.
  destruct (Hedges c Hc) as (e & He & Heid & Hsource & Htarget & _).
  pose proof (Hattrs c Hc) as Hattr_c.
  destruct (Hstored _ Hnew) as (Hnewrow & s' & Hs'in & Hs'src & Hs'tgt).
  assert (Huser' : match_users (graph w') user_id <> []) by now rewrite Hg.
  assert (Hcl_in : In cl (claims (graph w'))) by now rewrite Hg.
  assert (Hnew_in : In (claim_row_of (claim_a c)) (claims (graph w')))
    by now rewrite Hg.
  split.
  - exists (mk_conflict_record
              (con_edge_id e) (claim_attribute cl)
              (fst (con_target e, con_source e)) (claim_value cl)
              (snd (con_target e, con_source e))
              (claim_value (claim_row_of (claim_a c)))).
    split.
    + apply conflicts_of_intro; try assumption.
      * right. now left.
      * cbn. congruence.
      * cbn. congruence.
      * cbn [fst]. rewrite Hg, Htarget, Hid.
        exists s, cr, b. repeat split; assumption.
    + unfold lists_from_existing. cbn.
      repeat split; congruence.
  - exists (mk_conflict_record
              (con_edge_id e) (claim_attribute (claim_row_of (claim_a c)))
              (fst (con_source e, con_target e))
              (claim_value (claim_row_of (claim_a c)))
              (snd (con_source e, con_target e)) (claim_value cl)).
    split.
    + apply conflicts_of_intro; try assumption.
      * now left.
      * cbn. congruence.
      * cbn. congruence.
      * cbn [fst]. rewrite Hg, Hsource.
        exists s', (credential_row_of (credential_node result)),
               (mk_belongs_to (CredentialNode.node_id (credential_node result))
                              user_id).
        repeat split; try assumption. now rewrite Hs'src.
    + unfold lists_from_new. cbn.
      repeat split; congruence.
Qed.

End ListingFacts.

(* ================================================================= *)
(** * OIDC events *)

Lemma oidc_vc_payload_shape (payload : dict) :
  oidc_vc_payload payload
  = [("@context", VList [VStr "https://www.w3.org/2018/credentials/v1"]);
     ("type", VList [VStr "VerifiableCredential"; VStr "OIDCCredential"]);
     ("issuer", dict_get_default payload "iss" (VStr "unknown"));
     ("issuanceDate", dict_get_default payload "timestamp" (VStr EmptyString));
     ("credentialSubject", VDict (spec_subject_attributes payload))].
Proof.
  unfold oidc_vc_payload, spec_subject_attributes. cbv zeta.
  change [("id", payload_get payload "sub");
          ("email", payload_get payload "email");
          ("name", payload_get payload "name");
          ("given_name", payload_get payload "given_name");
          ("family_name", payload_get payload "family_name");
          ("picture", payload_get payload "picture")]
    with (map (fun field => (snd field, payload_get payload (fst field))) oidc_fields).
  rewrite filter_present. reflexivity.
Qed.

(** The normalised payload parses whenever the payload's [timestamp] is
    a string, [None] or missing. *)
Lemma credential_from_dict_oidc (payload : dict) (issuance_date : option string) :
  as_optional_str (Some (dict_get_default payload "timestamp" (VStr EmptyString)))
  = Some issuance_date ->
  credential_from_dict (oidc_vc_payload payload)
  = Some (VerifiableCredential.mk
            ["https://www.w3.org/2018/credentials/v1"]
            ["VerifiableCredential"; "OIDCCredential"]
            None
            (dict_get_default payload "iss" (VStr "unknown"))
            issuance_date None
            (spec_subject_attributes payload) None).
Proof.
  intros Hdate. rewrite oidc_vc_payload_shape.
  remember (spec_subject_attributes payload) as subject.
  remember (dict_get_default payload "iss" (VStr "unknown")) as iss.
  remember (dict_get_default payload "timestamp" (VStr EmptyString)) as timestamp.
  unfold credential_from_dict.
  cbn [dict_get dict_get_default String.eqb Ascii.eqb Bool.eqb
       as_str_list fold_right obind as_optional_str as_dict as_optional_dict].
  cbn [as_optional_str] in Hdate. rewrite Hdate. reflexivity.
Qed.

Section OidcFacts.

Variable fromisoformat : string -> option datetime.

(** X18.  An OIDC event whose [timestamp] is a string, [None] or
    missing is decomposed as a credential of type [OIDCCredential]
    issued by the payload's [iss] ([unknown] without one).  Its claims
    are the pairs, other than [id], extracted from the fields the
    payload has a value for among [sub] (under the key [id]), [email],
    [name], [given_name], [family_name] and [picture]; none is named
    [id].  No conflict is looked for: no CONTRADICTS edge is written. *)
Theorem oidc_event_decomposed (payload : dict) (user_id event_id : string)
        (w : World) (vc : VerifiableCredential.t) :
  credential_from_dict (oidc_vc_payload payload) = Some vc ->
  exists result w',
    decompose fromisoformat vc user_id event_id w = (Ok result, w')
    /\ CredentialNode.credential_type (credential_node result) = "OIDCCredential"
    /\ CredentialNode.issuer (credential_node result)
       = VerifiableCredential.get_issuer_id
           (with_issuer (dict_get_default payload "iss" (VStr "unknown")))
    /\ map claim_pair (claim_nodes result)
       = filter not_subject_id
                (_extract_claims (spec_subject_attributes payload) EmptyString)
    /\ Forall (fun claim => ClaimNode.attribute claim <> "id") (claim_nodes result)
    /\ contradicts (graph w') = contradicts (graph w).
Proof.
  intros Hparsed.
  assert (Hshape : exists issuance_date,
             vc = VerifiableCredential.mk
                    ["https://www.w3.org/2018/credentials/v1"]
                    ["VerifiableCredential"; "OIDCCredential"]
                    None
                    (dict_get_default payload "iss" (VStr "unknown"))
                    issuance_date None
                    (spec_subject_attributes payload) None).
  { destruct (as_optional_str
                (Some (dict_get_default payload "timestamp" (VStr EmptyString))))
      as [issuance_date|] eqn:Hdate.
    - exists issuance_date.
      rewrite (credential_from_dict_oidc payload issuance_date Hdate) in Hparsed.
      now inversion Hparsed.
    - exfalso. rewrite oidc_vc_payload_shape in Hparsed.
      remember (spec_subject_attributes payload) as subject.
      remember (dict_get_default payload "iss" (VStr "unknown")) as iss.
      remember (dict_get_default payload "timestamp" (VStr EmptyString))
        as timestamp.
      unfold credential_from_dict in Hparsed.
      cbn [dict_get dict_get_default String.eqb Ascii.eqb Bool.eqb
           as_str_list fold_right obind] in Hparsed.
      rewrite Hdate in Hparsed. discriminate. }
  destruct Hshape as [issuance_date Hvc].
  destruct (decompose_effect fromisoformat vc user_id event_id w)
    as (result & w' & Hrun & _ & Hcons & _).
  destruct (decompose_returns fromisoformat vc user_id event_id w)
    as (result' & w1' & Hrun' & _ & Hpairs & _ & Hissuer & Htype & _).
  rewrite Hrun in Hrun'. inversion Hrun'; subst result' w1'. clear Hrun'.
  exists result, w'. split; [exact Hrun|].
  split; [rewrite Htype, Hvc; reflexivity|].
  split; [rewrite Hissuer, Hvc; reflexivity|].
  split; [now rewrite Hpairs, Hvc|].
  split; [|exact Hcons].
  apply Forall_forall. intros claim Hin Hid.
  assert (Hkept : In (claim_pair claim)
                     (filter not_subject_id
                             (_extract_claims
                                (VerifiableCredential.credential_subject vc)
                                EmptyString))).
  { rewrite <- Hpairs. now apply in_map. }
  apply filter_In in Hkept. destruct Hkept as [_ Hkept].
  unfold not_subject_id, claim_pair in Hkept. cbn [fst] in Hkept.
  rewrite Hid in Hkept. discriminate.
Qed.

End OidcFacts.

Lemma oidc_event_decomposed_witness :
  exists result w',
    decompose fromisoformat_basic
              (VerifiableCredential.mk
                 ["https://www.w3.org/2018/credentials/v1"]
                 ["VerifiableCredential"; "OIDCCredential"]
                 None (VStr "https://idp.example")
                 (Some "2024-01-15T00:00:00Z") None
                 [("id", VStr "u1"); ("email", VStr "ann@example.org");
                  ("name", VStr "Ann")]
                 None)
              "user-123" "event-9" world0 = (Ok result, w')
    /\ CredentialNode.credential_type (credential_node result) = "OIDCCredential"
    /\ CredentialNode.issuer (credential_node result) = VStr "https://idp.example"
    /\ map claim_pair (claim_nodes result)
       = [("email", VStr "ann@example.org"); ("name", VStr "Ann")]
    /\ Forall (fun claim => ClaimNode.attribute claim <> "id") (claim_nodes result)
    /\ contradicts (graph w') = [].
Proof.
  exact (oidc_event_decomposed fromisoformat_basic sample_oidc_payload
                               "user-123" "event-9" world0 _ eq_refl).
Defined.

(* ================================================================= *)
(** * More on the credential model *)

Lemma extract_claims_dot_joined_witness :
  _extract_claims alice_subject EmptyString = spec_flatten alice_subject.
Proof.
  apply extract_claims_dot_joined. repeat constructor.
Defined.

(** X20.  [get_issuer_id] gives a string for every issuer but an object
    whose [id] is not a string: that [id] it gives back as it is, a
    [None] included. *)
Theorem get_issuer_id_is_string (vc : VerifiableCredential.t) :
  (exists s, VerifiableCredential.get_issuer_id vc = VStr s)
  \/ (exists d v,
         VerifiableCredential.issuer vc = VDict d
         /\ dict_get d "id" = Some v
         /\ VerifiableCredential.get_issuer_id vc = v
         /\ forall s, v <> VStr s).
Proof.
  unfold VerifiableCredential.get_issuer_id, dict_get_default.
  destruct (VerifiableCredential.issuer vc) as [| | | | |xs|d] eqn:Hissuer;
    try (left; eexists; reflexivity).
  destruct (dict_get d "id") as [v|] eqn:Hid; [|left; eexists; reflexivity].
  destruct v; try (right; exists d; eexists;
                   repeat split; [exact Hid | discriminate]).
  left. eexists. reflexivity.
Qed.

(** What parsing keeps of a payload. *)
Lemma credential_from_dict_fields (data : dict) (vc : VerifiableCredential.t) :
  credential_from_dict data = Some vc ->
  as_str_list (dict_get_default data "type" (VList []))
  = Some (VerifiableCredential.type vc)
  /\ VerifiableCredential.issuer vc
     = dict_get_default data "issuer" (VStr EmptyString)
  /\ as_optional_str (dict_get data "issuanceDate")
     = Some (VerifiableCredential.issuance_date vc)
  /\ as_dict (dict_get_default data "credentialSubject" (VDict []))
     = Some (VerifiableCredential.credential_subject vc).
Proof.
  unfold credential_from_dict, obind.
  destruct (as_str_list (dict_get_default data "@context" (VList [])));
    [|discriminate].
  destruct (as_str_list (dict_get_default data "type" (VList [])));
    [|discriminate].
  destruct (as_optional_str (dict_get data "id")); [|discriminate].
  destruct (as_optional_str (dict_get data "issuanceDate")); [|discriminate].
  destruct (as_optional_str (dict_get data "expirationDate")); [|discriminate].
  destruct (as_dict (dict_get_default data "credentialSubject" (VDict [])));
    [|discriminate].
  destruct (as_optional_dict (dict_get data "proof")); [|discriminate].
  intros Hvc. inversion Hvc. repeat split.
Qed.

Section PayloadFacts.

Variable fromisoformat : string -> option datetime.

(** X21.  From payload to claims: for a credential parsed from a
    payload, [decompose] makes the claims of the pairs, other than [id],
    extracted from the payload's [credentialSubject], and none when the
    payload has no [credentialSubject]; the credential node is made and
    stored all the same, with the issuer id read from the payload's
    [issuer] (the empty string without one). *)
Theorem payload_to_claims (data : dict) (vc : VerifiableCredential.t)
        (user_id event_id : string) (w : World) :
  credential_from_dict data = Some vc ->
  exists result w',
    decompose fromisoformat vc user_id event_id w = (Ok result, w')
    /\ map claim_pair (claim_nodes result)
       = match dict_get data "credentialSubject" with
         | Some (VDict subject) =>
             filter not_subject_id (_extract_claims subject EmptyString)
         | _ => []
         end
    /\ claims (graph w')
       = (claims (graph w) ++ map claim_row_of (claim_nodes result))%list
    /\ CredentialNode.issuer (credential_node result)
       = VerifiableCredential.get_issuer_id
           (with_issuer (dict_get_default data "issuer" (VStr EmptyString)))
    /\ In (credential_row_of (credential_node result)) (credentials (graph w')).
Proof.
  intros Hparsed.
  destruct (credential_from_dict_fields data vc Hparsed)
    as (_ & Hissuer & _ & Hsubject).
  destruct (decompose_effect fromisoformat vc user_id event_id w)
    as (result & w' & Hrun & _ & _ & _ & Hcred & _ & _ & Hrows & _).
  destruct (decompose_returns fromisoformat vc user_id event_id w)
    as (result' & w1' & Hrun' & _ & Hpairs & _ & Hid & _).
  rewrite Hrun in Hrun'. inversion Hrun'; subst result' w1'. clear Hrun'.
  exists result, w'. split; [exact Hrun|].
  split; [|split; [exact Hrows|split; [|exact Hcred]]].
  - rewrite Hpairs. unfold dict_get_default in Hsubject.
    destruct (dict_get data "credentialSubject") as [v|].
    + destruct v; try discriminate. cbn in Hsubject.
      now inversion Hsubject.
    + cbn in Hsubject. inversion Hsubject as [Hempty]. reflexivity.
  - rewrite Hid. unfold VerifiableCredential.get_issuer_id.
    now rewrite Hissuer.
Qed.

End PayloadFacts.

Lemma payload_to_claims_witness :
  exists result w',
    decompose fromisoformat_basic
              (VerifiableCredential.mk
                 [] ["VerifiableCredential"; "EmployeeCredential"] None
                 (VStr EmptyString) (Some "2024-01-15T00:00:00Z") None [] None)
              "user-123" "event-7" world0 = (Ok result, w')
    /\ map claim_pair (claim_nodes result) = []
    /\ claims (graph w') = map claim_row_of (claim_nodes result)
    /\ CredentialNode.issuer (credential_node result) = VStr EmptyString
    /\ In (credential_row_of (credential_node result)) (credentials (graph w')).
Proof.
  exact (payload_to_claims fromisoformat_basic bare_payload _
                           "user-123" "event-7" world0 eq_refl).
Defined.
